(** * Routing core of the banking multi-agent graph

    A shallow embedding of [src/python/src/app/banking_agents.py]: the
    coordinator node with its skip-routing rule and transfer-directive scan,
    the three specialist nodes, the conditional-edge function
    [get_active_agent] and the capability bootstrap
    [get_persistent_mcp_client].

    Python values are an inductive type, exceptions are values of an error
    monad, module globals and the Cosmos container are fields of an explicit
    world that is threaded through every node, and the language model is an
    oracle.  [print] and [logging] calls have no counterpart here. *)

From Stdlib Require Import ZArith QArith String Ascii List Bool Lia.
From stdpp Require Import base option list strings gmap.

Import ListNotations.
Local Open Scope string_scope.
Local Open Scope list_scope.

(** ** Python values *)

#[local] Set Warnings "-register-all".

(** The values [json.loads] can produce and a Cosmos item can hold.  A
    dict keeps its entries as an association list; a key occurs once. *)
Inductive pyval : Type :=
| PNone
| PBool (b : bool)
| PInt (z : Z)
| PFloat (q : Q)
| PStr (s : string)
| PList (l : list pyval)
| PDict (d : list (string * pyval)).

(** Python truth value, as [if x:] sees it. *)
Definition truthy (v : pyval) : bool :=
  match v with
  | PNone => false
  | PBool b => b
  | PInt z => negb (z =? 0)%Z
  | PFloat q => negb (Qnum q =? 0)%Z
  | PStr s => negb (String.eqb s "")
  | PList l => negb (match l with [] => true | _ => false end)
  | PDict d => negb (match d with [] => true | _ => false end)
  end.

(** The constants the source compares an active agent against. *)
Inductive literal : Type :=
| LNone
| LStr (s : string).

(** [v == c] for a constant [c] that is [None] or a [str]. *)
Definition py_eq_literal (v : pyval) (c : literal) : bool :=
  match v, c with
  | PNone, LNone => true
  | PStr s, LStr t => String.eqb s t
  | _, _ => false
  end.

(** [v in [c1, c2, ...]]. *)
Definition py_in (v : pyval) (cs : list literal) : bool :=
  existsb (py_eq_literal v) cs.

(** ** Exceptions and the error monad *)

Inductive exn : Type :=
| JSONDecodeError
| TypeError
| AttributeError
| KeyError
| IndexError
| CosmosResourceNotFoundError
| Exception (msg : string).

Inductive result (A : Type) : Type :=
| Ok (a : A)
| Raise (e : exn).
Arguments Ok {A} a.
Arguments Raise {A} e.

Definition rbind {A B : Type} (r : result A) (k : A -> result B) : result B :=
  match r with
  | Ok a => k a
  | Raise e => Raise e
  end.

(** [try: body / except <classes>: handler]; [handler e = None] when the
    except clause does not list the class of [e]. *)
Definition rtry {A : Type} (body : result A) (handler : exn -> option (result A))
  : result A :=
  match body with
  | Ok a => Ok a
  | Raise e => match handler e with
               | Some h => h
               | None => Raise e
               end
  end.

Declare Scope result_scope.
Delimit Scope result_scope with result.
Notation "x <~ c ;; k" := (rbind c (fun x => k))
  (at level 100, c at next level, right associativity) : result_scope.

Definition is_ok {A : Type} (r : result A) : bool :=
  match r with Ok _ => true | Raise _ => false end.

(** ** Strings *)

(** ASCII characters that [str.strip] removes. *)
Definition is_space (c : ascii) : bool :=
  let n := nat_of_ascii c in
  ((9 <=? n)%nat && (n <=? 13)%nat) || ((28 <=? n)%nat && (n <=? 32)%nat).

Fixpoint is_blank (s : string) : bool :=
  match s with
  | EmptyString => true
  | String c rest => is_space c && is_blank rest
  end.

(** [s.startswith(p)]. *)
Definition startswith (s p : string) : bool := String.prefix p s.

(** The text after the first [sep] of [s], when there is one. *)
Fixpoint after_first (sep : ascii) (s : string) : option string :=
  match s with
  | EmptyString => None
  | String c rest => if Ascii.eqb c sep then Some rest else after_first sep rest
  end.

(** [s.split(":", 1)[1]]: the split has a second part only when [s] holds a
    colon. *)
Definition split_colon_1 (s : string) : result string :=
  match after_first ":"%char s with
  | Some rest => Ok rest
  | None => Raise IndexError
  end.

(** ** Dictionaries *)

Fixpoint assoc_lookup (k : string) (d : list (string * pyval)) : option pyval :=
  match d with
  | [] => None
  | (k', v) :: rest => if String.eqb k k' then Some v else assoc_lookup k rest
  end.

(** [v.get(k)]: only a dict has the method. *)
Definition py_get (v : pyval) (k : string) : result pyval :=
  match v with
  | PDict d => Ok (default PNone (assoc_lookup k d))
  | _ => Raise AttributeError
  end.

(** [v[k]] with a string key. *)
Definition py_getitem (v : pyval) (k : string) : result pyval :=
  match v with
  | PDict d => match assoc_lookup k d with
               | Some x => Ok x
               | None => Raise KeyError
               end
  | _ => Raise TypeError
  end.

(** ** Messages, agent responses and commands *)

(** The message classes of the graph state. *)
Inductive message_type : Type :=
| HumanMessage
| AIMessage
| ToolMessage
| SystemMessage.

(** [message.content] is a [str] or a list of content blocks. *)
Inductive msg_content : Type :=
| CStr (s : string)
| CBlocks (blocks : list pyval).

Record message : Type := {
  msg_type : message_type;
  content : msg_content;
}.

(** An element of [state["messages"]]: a message object, or a plain dict
    such as the one [call_transactions_agent] appends. *)
Inductive entry : Type :=
| Obj (m : message)
| RoleDict (role : string) (text : string).

(** What an agent's [ainvoke] returns: a dict, with or without a
    ["messages"] key, or some other value.  The messages of a response are
    message objects. *)
Inductive response : Type :=
| RespDict (messages : option (list message)) (others : list (string * pyval))
| RespOther (v : pyval).

(** A mutable [MessagesState] object is known by the address of its
    message list. *)
Abbreviation loc := nat.

Inductive update_payload : Type :=
| UpdateState (state : loc)
| UpdateResponse (r : response).

(** [Command(update=..., goto=...)]. *)
Record Command : Type := {
  update : update_payload;
  goto : pyval;
}.

Definition human : pyval := PStr "human".

(** The four agents built by [setup_agents]. *)
Inductive agent : Type :=
| coordinator_agent
| customer_support_agent
| sales_agent
| transactions_agent.

Definition agent_name (a : agent) : string :=
  match a with
  | coordinator_agent => "coordinator_agent"
  | customer_support_agent => "customer_support_agent"
  | sales_agent => "sales_agent"
  | transactions_agent => "transactions_agent"
  end.

(** Equality of agents is decidable. *)
Definition agent_eq_dec (a b : agent) : {a = b} + {a <> b}.
Proof. decide equality. Defined.

(** [config["configurable"]]: each of the three identities may be missing. *)
Record config : Type := {
  cfg_thread_id : option string;
  cfg_userId : option string;
  cfg_tenantId : option string;
}.

Definition get_thread_id (c : config) : string :=
  default "UNKNOWN_THREAD_ID" (cfg_thread_id c).
Definition get_userId (c : config) : string :=
  default "UNKNOWN_USER_ID" (cfg_userId c).
Definition get_tenantId (c : config) : string :=
  default "UNKNOWN_TENANT_ID" (cfg_tenantId c).

(** ** The session store *)

(** A row of the chat container, with the fields the router writes.  The
    container is schemaless, so a stored row may lack [activeAgent]. *)
Record session_record : Type := {
  rec_id : string;
  rec_tenantId : string;
  rec_userId : string;
  rec_sessionId : string;
  rec_name : string;
  rec_age : string;
  rec_address : string;
  rec_activeAgent : option pyval;
  rec_ChatName : string;
  rec_messages : list pyval;
}.

(** Partition key: (tenant, user, thread). *)
Abbreviation key := (string * string * string)%type.

Definition record_key (r : session_record) : key :=
  (rec_tenantId r, rec_userId r, rec_sessionId r).

Definition set_activeAgent (a : pyval) (r : session_record) : session_record :=
  {| rec_id := rec_id r; rec_tenantId := rec_tenantId r;
     rec_userId := rec_userId r; rec_sessionId := rec_sessionId r;
     rec_name := rec_name r; rec_age := rec_age r;
     rec_address := rec_address r; rec_activeAgent := Some a;
     rec_ChatName := rec_ChatName r; rec_messages := rec_messages r |}.

(** [item.get('activeAgent', dflt)]. *)
Definition get_activeAgent (r : session_record) (dflt : pyval) : pyval :=
  default dflt (rec_activeAgent r).

(** ** The world *)

(** What a node does, in the order it does it. *)
Inductive event : Type :=
| EvReadItem (k : key)
| EvUpdateChatContainer (r : session_record)
| EvPatchActiveAgent (tenant user thread name : string)
| EvInvoke (a : agent) (msgs : list entry) (cfg : option config).

Record world : Type := {
  chat_container : gmap key session_record;
  local_interactive_mode : bool;
  heap : gmap loc (list entry);
  trace : list event;
}.

Definition set_chat_container (c : gmap key session_record) (w : world) : world :=
  {| chat_container := c; local_interactive_mode := local_interactive_mode w;
     heap := heap w; trace := trace w |}.

Definition set_heap (h : gmap loc (list entry)) (w : world) : world :=
  {| chat_container := chat_container w;
     local_interactive_mode := local_interactive_mode w;
     heap := h; trace := trace w |}.

Definition log_event (e : event) (w : world) : world :=
  {| chat_container := chat_container w;
     local_interactive_mode := local_interactive_mode w;
     heap := heap w; trace := trace w ++ [e] |}.

(** [state["messages"]]. *)
Definition state_messages (w : world) (state : loc) : list entry :=
  default [] (heap w !! state).

(** ** The monad of the nodes: state and exceptions *)

(** A computation over a state [S] that returns or raises. *)
Definition ST (S A : Type) : Type := S -> result A * S.

Definition ret {S A : Type} (a : A) : ST S A := fun w => (Ok a, w).

Definition raise {S A : Type} (e : exn) : ST S A := fun w => (Raise e, w).

Definition bind {S A B : Type} (m : ST S A) (k : A -> ST S B) : ST S B :=
  fun w => match m w with
           | (Ok a, w') => k a w'
           | (Raise e, w') => (Raise e, w')
           end.

(** [try: body / except ...: handler]: what [body] did to the state before
    it raised stays done. *)
Definition try_except {S A : Type} (body : ST S A) (handler : exn -> option (ST S A))
  : ST S A :=
  fun w => match body w with
           | (Ok a, w') => (Ok a, w')
           | (Raise e, w') => match handler e with
                              | Some h => h w'
                              | None => (Raise e, w')
                              end
           end.

Definition lift {S A : Type} (r : result A) : ST S A := fun w => (r, w).

Definition gets {S A : Type} (f : S -> A) : ST S A := fun w => (Ok (f w), w).

Definition modify {S : Type} (f : S -> S) : ST S unit := fun w => (Ok tt, f w).

Declare Scope node_scope.
Delimit Scope node_scope with node.
Notation "x <- c ;; k" := (bind c (fun x => k))
  (at level 100, c at next level, right associativity) : node_scope.
Notation "c ;;; k" := (bind c (fun _ => k))
  (at level 100, right associativity) : node_scope.

(** The nodes run over the world. *)
Definition M (A : Type) : Type := ST world A.

(** [except Exception]: every exception of the model is caught. *)
Definition except_Exception {A : Type} (h : A) : exn -> option A :=
  fun _ => Some h.

(** Modelled from the spec: the Cosmos container and the helpers of
    [src.app.services.azure_cosmos_db] are not part of the source file.
    The spec gives the store as [read(threadId) -> record | NotFound],
    [write(record)], an upsert keyed by (tenant, user, thread), and
    [patchActiveAgent(tenant, user, thread, newAgent)].  A point read of an
    absent row raises. *)
Definition read_item (item : string) (partition_key : key) : M session_record :=
  fun w =>
    let w' := log_event (EvReadItem partition_key) w in
    match chat_container w !! partition_key with
    | Some r => (Ok r, w')
    | None => (Raise CosmosResourceNotFoundError, w')
    end.

(** Modelled from the spec: [write(record)], an upsert under the record's
    own (tenant, user, session) identity. *)
Definition update_chat_container (r : session_record) : M unit :=
  modify (fun w =>
    log_event (EvUpdateChatContainer r)
      (set_chat_container (<[record_key r := r]> (chat_container w)) w)).

(** Modelled from the spec: [patchActiveAgent] replaces the active agent of
    the row under (tenant, user, thread); the row it patches is an existing
    one. *)
Definition patch_active_agent (tenantId userId sessionId activeAgent : string)
  : M unit :=
  modify (fun w =>
    log_event (EvPatchActiveAgent tenantId userId sessionId activeAgent)
      (set_chat_container
         (alter (set_activeAgent (PStr activeAgent))
                (tenantId, userId, sessionId) (chat_container w)) w)).

(** [state["messages"].append(e)]: the list object is changed in place. *)
Definition append_message (state : loc) (e : entry) : M unit :=
  modify (fun w => set_heap (<[state := state_messages w state ++ [e]]> (heap w)) w).

(** ** The nodes of the graph *)

Section Router.

(** [json.loads] on a [str]: the parsed value, or [None] for
    [JSONDecodeError]. *)
Variable json_loads : string -> option pyval.

(** The compiled agents: what [agent.ainvoke(state)] or
    [agent.ainvoke(state, config)] returns or raises on the messages of
    [state]. *)
Variable ainvoke : agent -> list entry -> option config -> result response.

Local Open Scope result_scope.

(** [json.loads(message.content)]: a content that is not a [str] is a
    [TypeError]. *)
Definition json_loads_content (c : msg_content) : result pyval :=
  match c with
  | CStr s => match json_loads s with
              | Some v => Ok v
              | None => Raise JSONDecodeError
              end
  | CBlocks _ => Raise TypeError
  end.

(** The structured stage on a content: [json.loads(content).get("goto")]. *)
Definition structured_goto (c : msg_content) : result pyval :=
  v <~ json_loads_content c ;; py_get v "goto".


(** [except (json.JSONDecodeError, TypeError, AttributeError)]. *)
Definition except_parse_errors {A : Type} (h : A) : exn -> option A :=
  fun e => match e with
           | JSONDecodeError | TypeError | AttributeError => Some h
           | _ => None
           end.

(** One pass of the coordinator's loop body over a message (lines
    202-218): [Some t] when the body assigns [transfer_target = t] and
    breaks, [None] when the loop goes on. *)
Definition coordinator_inspect (m : message) : result (option pyval) :=
  match content m with
  | CStr s =>
      if negb (is_blank s) then
        rtry
          (content_data <~ json_loads_content (content m) ;;
           g <~ py_get content_data "goto" ;;
           if truthy g then
             t <~ py_getitem content_data "goto" ;; Ok (Some t)
           else Ok None)
          (except_parse_errors
             (if startswith s "TRANSFER_REQUEST:" then
                t <~ split_colon_1 s ;; Ok (Some (PStr t))
              else Ok None))
      else Ok None
  | CBlocks _ => Ok None
  end.

(** [for i, message in enumerate(response['messages'])], with
    [transfer_target = None] before the loop. *)
Fixpoint coordinator_scan (msgs : list message) : result pyval :=
  match msgs with
  | [] => Ok PNone
  | m :: rest =>
      r <~ coordinator_inspect m ;;
      match r with
      | Some t => Ok t
      | None => coordinator_scan rest
      end
  end.

(** Lines 189-232: the value of [transfer_target] after the checks on
    the response. *)
Definition coordinator_transfer_target (r : response) : result pyval :=
  match r with
  | RespDict (Some (m :: rest)) _ => coordinator_scan (m :: rest)
  | RespDict _ _ => Ok PNone
  | RespOther _ => Ok PNone
  end.

Local Open Scope node_scope.

(** [agent.ainvoke(state, ...)]: the agent sees the messages the state
    holds at that moment. *)
Definition invoke (a : agent) (state : loc) (cfg : option config) : M response :=
  fun w =>
    let msgs := state_messages w state in
    (ainvoke a msgs cfg, log_event (EvInvoke a msgs cfg) w).

(** The row written for a thread without one (lines 167-178). *)
Definition default_record (thread_id : string) : session_record :=
  {| rec_id := thread_id;
     rec_tenantId := "cli-test";
     rec_userId := "cli-test";
     rec_sessionId := thread_id;
     rec_name := "cli-test";
     rec_age := "cli-test";
     rec_address := "cli-test";
     rec_activeAgent := Some (PStr "unknown");
     rec_ChatName := "cli-test";
     rec_messages := [] |}.

Definition call_coordinator_agent (state : loc) (cfg : config) : M Command :=
  let thread_id := get_thread_id cfg in
  let userId := get_userId cfg in
  let tenantId := get_tenantId cfg in
  activeAgent <-
    try_except
      (item <- read_item thread_id (tenantId, userId, thread_id) ;;
       ret (get_activeAgent item (PStr "unknown")))
      (except_Exception (ret PNone)) ;;
  (if py_eq_literal activeAgent LNone then
     mode <- gets local_interactive_mode ;;
     if (mode : bool) then update_chat_container (default_record thread_id)
     else ret tt
   else ret tt) ;;;
  if negb (py_in activeAgent [LNone; LStr "unknown"; LStr "coordinator_agent"])
  then ret {| update := UpdateState state; goto := activeAgent |}
  else
    response <- invoke coordinator_agent state None ;;
    transfer_target <- lift (coordinator_transfer_target response) ;;
    if truthy transfer_target
    then ret {| update := UpdateResponse response; goto := transfer_target |}
    else ret {| update := UpdateResponse response; goto := human |}.

Definition call_customer_support_agent (state : loc) (cfg : config) : M Command :=
  let thread_id := get_thread_id cfg in
  (mode <- gets local_interactive_mode ;;
   if (mode : bool)
   then patch_active_agent "cli-test" "cli-test" thread_id "customer_support_agent"
   else ret tt) ;;;
  response <- invoke customer_support_agent state None ;;
  ret {| update := UpdateResponse response; goto := human |}.

Definition call_sales_agent (state : loc) (cfg : config) : M Command :=
  let thread_id := get_thread_id cfg in
  (mode <- gets local_interactive_mode ;;
   if (mode : bool)
   then patch_active_agent "cli-test" "cli-test" thread_id "sales_agent"
   else ret tt) ;;;
  response <- invoke sales_agent state (Some cfg) ;;
  ret {| update := UpdateResponse response; goto := human |}.

(** The dict appended at lines 276-279. *)
Definition transfer_context (tenantId userId thread_id : string) : entry :=
  RoleDict "system"
    ("When calling bank_transfer tool, be sure to pass in tenantId='"
       ++ tenantId ++ "', userId='" ++ userId ++ "', thread_id='"
       ++ thread_id ++ "'").

Definition is_SystemMessage (m : message) : bool :=
  match msg_type m with SystemMessage => true | _ => false end.

(** Lines 282-286: [response["messages"]] is rebuilt without the
    [SystemMessage] instances. *)
Definition strip_system (r : response) : response :=
  match r with
  | RespDict (Some msgs) others =>
      RespDict (Some (List.filter (fun m => negb (is_SystemMessage m)) msgs)) others
  | _ => r
  end.

Definition call_transactions_agent (state : loc) (cfg : config) : M Command :=
  let thread_id := get_thread_id cfg in
  let userId := get_userId cfg in
  let tenantId := get_tenantId cfg in
  (mode <- gets local_interactive_mode ;;
   if (mode : bool)
   then patch_active_agent "cli-test" "cli-test" thread_id "transactions_agent"
   else ret tt) ;;;
  append_message state (transfer_context tenantId userId thread_id) ;;;
  response <- invoke transactions_agent state (Some cfg) ;;
  ret {| update := UpdateResponse (strip_system response); goto := human |}.

(** [isinstance(message, ToolMessage)] on an element of the state. *)
Definition is_ToolMessage (e : entry) : bool :=
  match e with
  | Obj m => match msg_type m with ToolMessage => true | _ => false end
  | RoleDict _ _ => false
  end.

Definition entry_content (e : entry) : msg_content :=
  match e with
  | Obj m => content m
  | RoleDict _ text => CStr text
  end.

Local Open Scope result_scope.

(** The loop of [get_active_agent] (lines 305-314) over the reversed
    messages; [activeAgent] is the variable the loop assigns.  The [try]
    assigns before it tests, so a falsy [goto] stays in the variable while
    the loop goes on; [except Exception] leaves the variable as it was. *)
Fixpoint active_agent_scan (reversed : list entry) (activeAgent : pyval) : pyval :=
  match reversed with
  | [] => activeAgent
  | e :: rest =>
      if is_ToolMessage e then
        match (content_json <~ json_loads_content (entry_content e) ;;
               py_get content_json "goto")
        with
        | Ok a => if truthy a then a else active_agent_scan rest a
        | Raise _ => active_agent_scan rest activeAgent
        end
      else active_agent_scan rest activeAgent
  end.

Local Open Scope node_scope.

Definition get_active_agent (state : loc) (cfg : config) : M pyval :=
  let thread_id := get_thread_id cfg in
  let userId := get_userId cfg in
  let tenantId := get_tenantId cfg in
  msgs <- gets (fun w => state_messages w state) ;;
  let activeAgent := active_agent_scan (rev msgs) PNone in
  if negb (truthy activeAgent) then
    try_except
      (item <- read_item thread_id (tenantId, userId, thread_id) ;;
       ret (get_activeAgent item (PStr "unknown")))
      (except_Exception (ret (PStr "unknown")))
  else ret activeAgent.

End Router.

(** ** Capability bootstrap *)

(** A capability descriptor: a dict or an object, known by its name. *)
Record tool : Type := {
  tool_is_dict : bool;
  tool_name : option string;
}.

(** The shared client of [src.app.tools.mcp_client], by its handle. *)
Definition shared_client : Type := nat.

Inductive mcp_client : Type :=
| SharedMCPClientWrapper (shared : shared_client)
| MultiServerMCPClient (command : string) (args : list string) (transport : string).

(** The attempts of the bootstrap, in the order they are made. *)
Inductive bootstrap_event : Type :=
| EvGetSharedClient
| EvSharedGetTools
| EvNewLightweightClient
| EvLightweightGetTools.

(** The module globals of lines 24-27 and 62-64, with the attempts made. *)
Record globals : Type := {
  _persistent_mcp_client : option mcp_client;
  _mcp_tools_cache : option (list tool);
  _shared_mcp_client : option shared_client;
  attempts : list bootstrap_event;
}.

(** The module as loaded. *)
Definition initial_globals : globals :=
  {| _persistent_mcp_client := None; _mcp_tools_cache := None;
     _shared_mcp_client := None; attempts := [] |}.

Definition set_persistent_mcp_client (c : option mcp_client) (g : globals) : globals :=
  {| _persistent_mcp_client := c; _mcp_tools_cache := _mcp_tools_cache g;
     _shared_mcp_client := _shared_mcp_client g; attempts := attempts g |}.

Definition set_mcp_tools_cache (t : option (list tool)) (g : globals) : globals :=
  {| _persistent_mcp_client := _persistent_mcp_client g; _mcp_tools_cache := t;
     _shared_mcp_client := _shared_mcp_client g; attempts := attempts g |}.

Definition set_shared_mcp_client (c : option shared_client) (g : globals) : globals :=
  {| _persistent_mcp_client := _persistent_mcp_client g;
     _mcp_tools_cache := _mcp_tools_cache g;
     _shared_mcp_client := c; attempts := attempts g |}.

Definition log_attempt (e : bootstrap_event) (g : globals) : globals :=
  {| _persistent_mcp_client := _persistent_mcp_client g;
     _mcp_tools_cache := _mcp_tools_cache g;
     _shared_mcp_client := _shared_mcp_client g; attempts := attempts g ++ [e] |}.

Section Bootstrap.

(** The two capability providers: what each call returns or raises. *)
Variable get_shared_mcp_client : result shared_client.
Variable shared_get_tools : shared_client -> result (list tool).
Variable new_lightweight_client : result mcp_client.
Variable lightweight_get_tools : mcp_client -> result (list tool).

Local Open Scope node_scope.

(** An outside call: the attempt is recorded, then the call returns or
    raises. *)
Definition attempt {A : Type} (e : bootstrap_event) (r : result A) : ST globals A :=
  fun g => (r, log_attempt e g).

Definition both_failed : exn :=
  Exception "Both shared and lightweight MCP initialization failed".

(** Lines 74-106.  The logging between the assignments and the end of the
    [try] reads the cached list and raises nothing. *)
Definition init_shared : ST globals unit :=
  sc <- attempt EvGetSharedClient get_shared_mcp_client ;;
  modify (set_shared_mcp_client (Some sc)) ;;;
  tools <- attempt EvSharedGetTools (shared_get_tools sc) ;;
  modify (set_mcp_tools_cache (Some tools)) ;;;
  modify (set_persistent_mcp_client (Some (SharedMCPClientWrapper sc))).

(** Lines 113-123. *)
Definition init_lightweight : ST globals unit :=
  cl <- attempt EvNewLightweightClient new_lightweight_client ;;
  modify (set_persistent_mcp_client (Some cl)) ;;;
  tools <- attempt EvLightweightGetTools (lightweight_get_tools cl) ;;
  modify (set_mcp_tools_cache (Some tools)).

Definition get_persistent_mcp_client
  : ST globals (option mcp_client * option (list tool)) :=
  c <- gets _persistent_mcp_client ;;
  match c with
  | None =>
      try_except init_shared
        (except_Exception
           (try_except init_lightweight
              (except_Exception (raise both_failed))))
  | Some _ => ret tt
  end ;;;
  gets (fun g => (_persistent_mcp_client g, _mcp_tools_cache g)).

(** The primary provider: the shared client is obtained and lists its
    tools. *)
Definition primary_provider : result (list tool) :=
  rbind get_shared_mcp_client shared_get_tools.

(** The fallback provider: the lightweight client is built and lists its
    tools. *)
Definition fallback_provider : result (list tool) :=
  rbind new_lightweight_client lightweight_get_tools.

(** The attempts the primary provider costs. *)
Definition primary_attempts : list bootstrap_event :=
  EvGetSharedClient ::
  match get_shared_mcp_client with
  | Ok _ => [EvSharedGetTools]
  | Raise _ => []
  end.

(** The attempts the fallback provider costs. *)
Definition fallback_attempts : list bootstrap_event :=
  EvNewLightweightClient ::
  match new_lightweight_client with
  | Ok _ => [EvLightweightGetTools]
  | Raise _ => []
  end.

End Bootstrap.

(** ** The graph's node table and what a run shows *)

Section Graph.

Variable json_loads : string -> option pyval.
Variable ainvoke : agent -> list entry -> option config -> result response.

(** [builder.add_node(name, function)], lines 334-337. *)
Definition node (a : agent) : loc -> config -> M Command :=
  match a with
  | coordinator_agent => call_coordinator_agent json_loads ainvoke
  | customer_support_agent => call_customer_support_agent ainvoke
  | sales_agent => call_sales_agent ainvoke
  | transactions_agent => call_transactions_agent ainvoke
  end.

End Graph.

(** The partition key a node reads under. *)
Definition config_key (cfg : config) : key :=
  (get_tenantId cfg, get_userId cfg, get_thread_id cfg).

(** The [activeAgent] of the row persisted for the thread of [cfg], when
    the row is there and has the field. *)
Definition persisted_active_agent (w : world) (cfg : config) : option pyval :=
  match chat_container w !! config_key cfg with
  | Some r => rec_activeAgent r
  | None => None
  end.

(** The values that send a turn to the coordinator (line 182). *)
Definition coordinator_defaults : list literal :=
  [LNone; LStr "unknown"; LStr "coordinator_agent"].

(** The agents invoked along a trace, in order. *)
Fixpoint invoked (tr : list event) : list agent :=
  match tr with
  | [] => []
  | EvInvoke a _ _ :: rest => a :: invoked rest
  | _ :: rest => invoked rest
  end.

(** The message list a returned command carries, when it carries one. *)
Definition command_messages (c : Command) : option (list message) :=
  match update c with
  | UpdateResponse (RespDict (Some msgs) _) => Some msgs
  | _ => None
  end.

(** The [config] argument a node hands to its agent: the coordinator and
    the support node call [ainvoke(state)], the other two
    [ainvoke(state, config)]. *)
Definition invoke_config (a : agent) (cfg : config) : option config :=
  match a with
  | coordinator_agent | customer_support_agent => None
  | sales_agent | transactions_agent => Some cfg
  end.

(** The messages a specialist's agent is invoked on, for a state that held
    [msgs] on entry. *)
Definition invoke_messages (a : agent) (cfg : config) (msgs : list entry) : list entry :=
  match a with
  | transactions_agent =>
      msgs ++ [transfer_context (get_tenantId cfg) (get_userId cfg) (get_thread_id cfg)]
  | _ => msgs
  end.

(** ** The runs of the nodes, step by step *)

(** The active agent the node resolves at lines 158-163. *)
Definition resolved_active_agent (w : world) (cfg : config) : pyval :=
  match chat_container w !! config_key cfg with
  | Some r => get_activeAgent r (PStr "unknown")
  | None => PNone
  end.

(** The world after the lookup and the default-row write of lines
    158-178. *)
Definition after_resolution (w : world) (cfg : config) : world :=
  let w1 := log_event (EvReadItem (config_key cfg)) w in
  if py_eq_literal (resolved_active_agent w cfg) LNone && local_interactive_mode w
  then log_event (EvUpdateChatContainer (default_record (get_thread_id cfg)))
         (set_chat_container
            (<[record_key (default_record (get_thread_id cfg))
               := default_record (get_thread_id cfg)]> (chat_container w1)) w1)
  else w1.

(** The world after the guarded [patch_active_agent] call that opens each
    specialist node. *)
Definition after_patch (a : agent) (cfg : config) (w : world) : world :=
  if local_interactive_mode w then
    log_event
      (EvPatchActiveAgent "cli-test" "cli-test" (get_thread_id cfg) (agent_name a))
      (set_chat_container
         (alter (set_activeAgent (PStr (agent_name a)))
                ("cli-test", "cli-test", get_thread_id cfg) (chat_container w)) w)
  else w.

(** The world in which the specialist's agent is invoked. *)
Definition before_invoke (a : agent) (state : loc) (cfg : config) (w : world) : world :=
  let w1 := after_patch a cfg w in
  match a with
  | transactions_agent =>
      set_heap (<[state := invoke_messages a cfg (state_messages w state)]> (heap w1)) w1
  | _ => w1
  end.

(** What the node puts in the command for the agent's response. *)
Definition returned_response (a : agent) (r : response) : response :=
  match a with
  | transactions_agent => strip_system r
  | _ => r
  end.

(** Whether, along [tr], agent [a] is invoked only after a
    [patch_active_agent] call that records [a] for [thread]. *)
Fixpoint patches_before_invoke (a : agent) (thread : string) (tr : list event) : bool :=
  match tr with
  | [] => false
  | EvPatchActiveAgent _ _ th name :: rest =>
      (String.eqb th thread && String.eqb name (agent_name a))
      || patches_before_invoke a thread rest
  | EvInvoke b _ _ :: rest =>
      if String.eqb (agent_name b) (agent_name a) then false
      else patches_before_invoke a thread rest
  | _ :: rest => patches_before_invoke a thread rest
  end.

(** The events a specialist node adds to the trace. *)
Definition specialist_events (a : agent) (cfg : config) (mode : bool)
  (msgs : list entry) : list event :=
  (if mode
   then [EvPatchActiveAgent "cli-test" "cli-test" (get_thread_id cfg) (agent_name a)]
   else [])
  ++ [EvInvoke a (invoke_messages a cfg msgs) (invoke_config a cfg)].

(** ** The extraction rule as the specification words it *)

Section SpecExtraction.

Variable json_loads : string -> option pyval.






End SpecExtraction.

(** ** Sample collaborators for the worked examples *)

Definition dquote : string := String (ascii_of_nat 34) EmptyString.

(** The JSON text of an object with the single member [goto]. *)
Definition json_goto (target : string) : string :=
  "{" ++ dquote ++ "goto" ++ dquote ++ ": " ++ dquote ++ target ++ dquote ++ "}".

Definition sample_targets : list string :=
  ["sales_agent"; "transactions_agent"; "customer_support_agent"; "coordinator_agent"].

(** [json.loads] on the payloads of the examples: the text [json_goto t]
    for an agent name [t] parses to the dict with that member.  The other
    strings the examples use are not JSON documents. *)
Definition sample_json_loads (s : string) : option pyval :=
  match List.find (fun t => String.eqb s (json_goto t)) sample_targets with
  | Some t => Some (PDict [("goto", PStr t)])
  | None => None
  end.

(** How the graph state holds a dict message: as an object of the class
    its role names. *)
Definition as_message (e : entry) : message :=
  match e with
  | Obj m => m
  | RoleDict role text =>
      {| msg_type := if String.eqb role "system" then SystemMessage
                     else if String.eqb role "user" then HumanMessage
                     else if String.eqb role "tool" then ToolMessage
                     else AIMessage;
         content := CStr text |}
  end.

(** An agent that answers with the messages it was given followed by one
    reply: the coordinator's reply is the result of a transfer tool, a
    specialist's is plain text. *)
Definition sample_ainvoke (a : agent) (msgs : list entry) (cfg : option config)
  : result response :=
  let reply :=
    match a with
    | coordinator_agent =>
        {| msg_type := ToolMessage; content := CStr (json_goto "sales_agent") |}
    | _ => {| msg_type := AIMessage; content := CStr "How can I help you today?" |}
    end in
  Ok (RespDict (Some (map as_message msgs ++ [reply])) []).

(** An agent whose model call fails. *)
Definition failing_ainvoke (a : agent) (msgs : list entry) (cfg : option config)
  : result response :=
  Raise (Exception "model call failed").

Definition sample_config : config :=
  {| cfg_thread_id := Some "T1"; cfg_userId := Some "Mark";
     cfg_tenantId := Some "Contoso" |}.

Definition user_says (text : string) : entry :=
  Obj {| msg_type := HumanMessage; content := CStr text |}.

Definition tool_result (text : string) : message :=
  {| msg_type := ToolMessage; content := CStr text |}.

(** A fresh process: no row in the container, one state object at address
    0 that holds the user's message. *)
Definition sample_world (mode : bool) : world :=
  {| chat_container := ∅;
     local_interactive_mode := mode;
     heap := {[ 0%nat := [user_says "I want to open an account"] ]};
     trace := [] |}.

(** A row for the sample thread with the given active agent. *)
Definition sample_record (a : option pyval) : session_record :=
  {| rec_id := "T1"; rec_tenantId := "Contoso"; rec_userId := "Mark";
     rec_sessionId := "T1"; rec_name := "Mark"; rec_age := "41";
     rec_address := "1 Main Street"; rec_activeAgent := a;
     rec_ChatName := "New chat"; rec_messages := [] |}.

Definition sample_world_with (a : option pyval) (mode : bool) : world :=
  set_chat_container {[ config_key sample_config := sample_record a ]}
    (sample_world mode).

(** ** Tool filtering and the agents' tool sets *)

(** [tool.get('name', '')] on a dict, [getattr(tool, 'name', '')] on an
    object: a tool without a name has the empty name. *)
Definition get_tool_name (t : tool) : string :=
  if tool_is_dict t then default "" (tool_name t)
  else default "" (tool_name t).

(** [any(tool_name.startswith(prefix) for prefix in prefixes)]. *)
Definition matches_prefix (name : string) (prefixes : list string) : bool :=
  existsb (startswith name) prefixes.

(** Lines 48-59: the tools are appended in the order they are met. *)
Fixpoint filter_tools_by_prefix (tools : list tool) (prefixes : list string)
  : list tool :=
  match tools with
  | [] => []
  | t :: rest =>
      if matches_prefix (get_tool_name t) prefixes
      then t :: filter_tools_by_prefix rest prefixes
      else filter_tools_by_prefix rest prefixes
  end.

(** The prefix lists of [setup_agents], lines 139-142. *)
Definition agent_prefixes (a : agent) : list string :=
  match a with
  | coordinator_agent => ["transfer_to_"]
  | customer_support_agent =>
      ["service_request"; "get_branch_location"; "transfer_to_sales_agent";
       "transfer_to_transactions_agent"]
  | sales_agent =>
      ["get_offer_information"; "create_account"; "calculate_monthly_payment";
       "transfer_to_customer_support_agent"; "transfer_to_transactions_agent"]
  | transactions_agent =>
      ["bank_transfer"; "get_transaction_history"; "bank_balance";
       "transfer_to_customer_support_agent"]
  end.

(** The tools [setup_agents] hands to an agent. *)
Definition agent_tools (a : agent) (all_tools : list tool) : list tool :=
  filter_tools_by_prefix all_tools (agent_prefixes a).

(** ** Prompts *)

(** What [open(file_path, "r")] and the read do: the text of the file, a
    [FileNotFoundError], or another error. *)
Inductive open_result : Type :=
| Opened (text : string)
| FileNotFound
| OpenFailed (e : exn).

(** [s.lstrip()] on ASCII text. *)
Fixpoint lstrip (s : string) : string :=
  match s with
  | EmptyString => EmptyString
  | String c rest => if is_space c then lstrip rest else s
  end.

(** [s.rstrip()] on ASCII text. *)
Fixpoint rstrip (s : string) : string :=
  match s with
  | EmptyString => EmptyString
  | String c rest =>
      match rstrip rest with
      | EmptyString => if is_space c then EmptyString else String c EmptyString
      | kept => String c kept
      end
  end.

(** [s.strip()] on ASCII text. *)
Definition strip (s : string) : string := rstrip (lstrip s).

(** Whether a text starts, or ends, with a character [strip] removes. *)
Definition head_is_space (s : string) : bool :=
  match s with
  | EmptyString => false
  | String c _ => is_space c
  end.

Fixpoint last_is_space (s : string) : bool :=
  match s with
  | EmptyString => false
  | String c EmptyString => is_space c
  | String _ rest => last_is_space rest
  end.

Fixpoint ends_with_slash (s : string) : bool :=
  match s with
  | EmptyString => false
  | String c EmptyString => Ascii.eqb c "/"%char
  | String _ rest => ends_with_slash rest
  end.

(** [os.path.join(a, b)] on a POSIX system: an absolute [b] replaces [a]. *)
Definition os_path_join (a b : string) : string :=
  if startswith b "/" then b
  else if String.eqb a "" || ends_with_slash a then a ++ b
  else a ++ "/" ++ b.

Definition default_prompt : string := "You are an AI banking assistant.".

Section Prompts.

(** [PROMPT_DIR], and the files of the machine. *)
Variable PROMPT_DIR : string.
Variable open_file : string -> open_result.

Definition prompt_path (agent_name : string) : string :=
  os_path_join PROMPT_DIR (agent_name ++ ".prompty").

(** Lines 36-44: only [FileNotFoundError] is caught. *)
Definition load_prompt (agent_name : string) : result string :=
  match open_file (prompt_path agent_name) with
  | Opened text => Ok (strip text)
  | FileNotFound => Ok default_prompt
  | OpenFailed e => Raise e
  end.

End Prompts.

(** ** Building the agents *)

(** What [create_react_agent(model, tools, state_modifier=prompt)] is built
    from. *)
Record react_agent : Type := {
  react_tools : list tool;
  state_modifier : string;
}.

Section Setup.

Variable get_shared_mcp_client : result shared_client.
Variable shared_get_tools : shared_client -> result (list tool).
Variable new_lightweight_client : result mcp_client.
Variable lightweight_get_tools : mcp_client -> result (list tool).
Variable PROMPT_DIR : string.
Variable open_file : string -> open_result.

Local Open Scope node_scope.

(** [filter_tools_by_prefix(all_tools, prefixes)] on the cached tools:
    iterating [None] is a [TypeError]. *)
Definition filter_cached (all_tools : option (list tool)) (prefixes : list string)
  : result (list tool) :=
  match all_tools with
  | Some tools => Ok (filter_tools_by_prefix tools prefixes)
  | None => Raise TypeError
  end.

(** [create_react_agent(model, tools, state_modifier=load_prompt(name))]. *)
Definition create_react_agent (tools : list tool) (a : agent) : result react_agent :=
  rbind (load_prompt PROMPT_DIR open_file (agent_name a))
        (fun prompt => Ok {| react_tools := tools; state_modifier := prompt |}).

(** Lines 130-148: the four agents, in the order the globals are
    assigned. *)
Definition setup_agents : ST globals (agent -> react_agent) :=
  r <- get_persistent_mcp_client get_shared_mcp_client shared_get_tools
         new_lightweight_client lightweight_get_tools ;;
  let all_tools := snd r in
  coordinator_tools <- lift (filter_cached all_tools (agent_prefixes coordinator_agent)) ;;
  support_tools <- lift (filter_cached all_tools (agent_prefixes customer_support_agent)) ;;
  sales_tools <- lift (filter_cached all_tools (agent_prefixes sales_agent)) ;;
  transactions_tools <- lift (filter_cached all_tools (agent_prefixes transactions_agent)) ;;
  coordinator <- lift (create_react_agent coordinator_tools coordinator_agent) ;;
  support <- lift (create_react_agent support_tools customer_support_agent) ;;
  sales <- lift (create_react_agent sales_tools sales_agent) ;;
  transactions <- lift (create_react_agent transactions_tools transactions_agent) ;;
  ret (fun a => match a with
                | coordinator_agent => coordinator
                | customer_support_agent => support
                | sales_agent => sales
                | transactions_agent => transactions
                end).

End Setup.

(** ** Shutting the clients down *)

(** The calls [cleanup_persistent_mcp_client] makes on the clients. *)
Inductive shutdown_event : Type :=
| EvSharedCleanup (sc : shared_client)
| EvClientClose (c : mcp_client).

(** The module globals, with the shutdown calls made so far. *)
Record shutdown_state : Type := {
  sd_globals : globals;
  sd_calls : list shutdown_event;
}.

Definition on_globals (f : globals -> globals) (s : shutdown_state) : shutdown_state :=
  {| sd_globals := f (sd_globals s); sd_calls := sd_calls s |}.

Definition log_call (e : shutdown_event) (s : shutdown_state) : shutdown_state :=
  {| sd_globals := sd_globals s; sd_calls := sd_calls s ++ [e] |}.

Section Shutdown.

(** [shared_client.cleanup()]: what it returns or raises may depend on the
    calls made before it. *)
Variable shared_cleanup : shared_client -> list shutdown_event -> result unit.

(** Whether a [MultiServerMCPClient] has a [close] attribute, and what
    calling it returns or raises. *)
Variable has_close : bool.
Variable multiserver_close : list shutdown_event -> result unit.

Local Open Scope node_scope.

Definition call_shared_cleanup (sc : shared_client) : ST shutdown_state unit :=
  fun s => (shared_cleanup sc (sd_calls s), log_call (EvSharedCleanup sc) s).

(** [await _persistent_mcp_client.close()] when the client has the
    attribute: the wrapper's [close] (lines 93-94) cleans the shared client
    it wraps. *)
Definition close_client (c : mcp_client) : ST shutdown_state unit :=
  match c with
  | SharedMCPClientWrapper sc => call_shared_cleanup sc
  | MultiServerMCPClient _ _ _ =>
      if has_close
      then fun s => (multiserver_close (sd_calls s), log_call (EvClientClose c) s)
      else ret tt
  end.

(** Lines 356-383.  The second [try] has a [finally] that clears the
    client whatever [close] did. *)
Definition cleanup_persistent_mcp_client : ST shutdown_state unit :=
  shared <- gets (fun s => _shared_mcp_client (sd_globals s)) ;;
  match shared with
  | Some sc =>
      try_except
        (call_shared_cleanup sc ;;;
         modify (on_globals (set_shared_mcp_client None)))
        (except_Exception (ret tt))
  | None => ret tt
  end ;;;
  client <- gets (fun s => _persistent_mcp_client (sd_globals s)) ;;
  match client with
  | Some c =>
      try_except (close_client c) (except_Exception (ret tt)) ;;;
      modify (on_globals (set_persistent_mcp_client None))
  | None => ret tt
  end.

End Shutdown.

(** The calls the shutdown makes for a shared client and for a persistent
    client. *)
Definition shared_calls (shared : option shared_client) : list shutdown_event :=
  match shared with
  | Some sc => [EvSharedCleanup sc]
  | None => []
  end.

Definition close_calls (has_close : bool) (client : option mcp_client)
  : list shutdown_event :=
  match client with
  | Some (SharedMCPClientWrapper sc) => [EvSharedCleanup sc]
  | Some (MultiServerMCPClient command args transport) =>
      if has_close
      then [EvClientClose (MultiServerMCPClient command args transport)]
      else []
  | None => []
  end.

(** ** The conditional edges of the graph *)

(** The nodes added to the builder, lines 334-338. *)
Definition graph_nodes : list string :=
  ["coordinator_agent"; "customer_support_agent"; "sales_agent";
   "transactions_agent"; "human"].

(** The mapping given to [add_conditional_edges], lines 345-350. *)
Definition path_map : list (string * string) :=
  [("sales_agent", "sales_agent");
   ("transactions_agent", "transactions_agent");
   ("customer_support_agent", "customer_support_agent");
   ("coordinator_agent", "coordinator_agent")].

(** The entry of the mapping for a value [get_active_agent] returned. *)
Definition path_map_lookup (v : pyval) : option string :=
  match v with
  | PStr s => snd <$> List.find (fun kv => String.eqb (fst kv) s) path_map
  | _ => None
  end.

(** ** The interactive driver *)

(** ASCII [c.lower()]. *)
Definition lower_ascii (c : ascii) : ascii :=
  let n := nat_of_ascii c in
  if (65 <=? n)%nat && (n <=? 90)%nat then ascii_of_nat (n + 32) else c.

(** [s.lower()] on ASCII text. *)
Fixpoint lower (s : string) : string :=
  match s with
  | EmptyString => EmptyString
  | String c rest => String (lower_ascii c) (lower rest)
  end.

(** The value a node contributes to a streamed update: a dict, with its
    [messages] when it has the key, or something else. *)
Inductive stream_value : Type :=
| ValueDict (messages : option (list message))
| ValueOther.

(** One streamed update: node ids with their values. *)
Abbreviation stream_update := (list (string * stream_value)).

(** What the driver prints. *)
Inductive output : Type :=
| PrintWelcome
| PrintAnswer (node_id : string) (content : msg_content)
| PrintNoResponse.

(** How the driver ends: the user typed exit, standard input ran out
    ([input] raises [EOFError]), or the stream raised. *)
Inductive chat_end : Type :=
| Exited
| EndOfInput
| StreamRaised (e : exn).

Record chat_run : Type := {
  printed : list output;
  turns : list (list entry);
  ended : chat_end;
  unread : list string;
}.

(** Lines 400-405 for one node of an update: the answer printed, if any. *)
Definition answer_of (item : string * stream_value) : option output :=
  match snd item with
  | ValueDict (Some msgs) =>
      match last msgs with
      | Some m => match msg_type m with
                  | AIMessage => Some (PrintAnswer (fst item) (content m))
                  | _ => None
                  end
      | None => None
      end
  | _ => None
  end.

(** The answers of the updates of one turn, in stream order. *)
Definition answers (updates : list stream_update) : list output :=
  omap answer_of (concat updates).

Section Driver.

(** [graph.stream(input_message, config=thread_config, stream_mode="updates")]
    for the turn with the given number: the updates it yields, and the
    exception that ends it when it raises.  The graph runs in local
    interactive mode. *)
Variable graph_stream :
  bool -> nat -> list entry -> config -> list stream_update * option exn.

(** The uuid of the session. *)
Variable thread_id : string.

Definition thread_config : config :=
  {| cfg_thread_id := Some thread_id; cfg_userId := Some "Mark";
     cfg_tenantId := Some "Contoso" |}.

(** The loop of lines 393-410 over the lines of standard input. *)
Fixpoint chat_loop (inputs : list string) (turn : nat) : chat_run :=
  match inputs with
  | [] => {| printed := []; turns := []; ended := EndOfInput; unread := [] |}
  | user_input :: rest =>
      if String.eqb (lower user_input) "exit" then
        {| printed := []; turns := []; ended := Exited; unread := rest |}
      else
        let input_message := [RoleDict "user" user_input] in
        let streamed := graph_stream true turn input_message thread_config in
        let shown := answers (fst streamed) in
        match snd streamed with
        | Some e =>
            {| printed := shown; turns := [input_message];
               ended := StreamRaised e; unread := rest |}
        | None =>
            let later := chat_loop rest (S turn) in
            {| printed := shown
                          ++ (match shown with [] => [PrintNoResponse] | _ => [] end)
                          ++ printed later;
               turns := input_message :: turns later;
               ended := ended later;
               unread := unread later |}
        end
  end.

(** No streamed turn raises. *)
Definition stream_returns : Prop :=
  forall turn user_input,
    snd (graph_stream true turn [RoleDict "user" user_input] thread_config) = None.

Definition user_turn (user_input : string) : list entry :=
  [RoleDict "user" user_input].

(** Lines 386-410. *)
Definition interactive_chat (inputs : list string) : chat_run :=
  let run := chat_loop inputs 0 in
  {| printed := PrintWelcome :: printed run; turns := turns run;
     ended := ended run; unread := unread run |}.

End Driver.

(** * Facts *)

(** ** Strings *)

Lemma prefix_app (p s : string) :
  String.prefix p s = true -> exists rest, s = (p ++ rest)%string.
Proof.
  revert s. induction p as [|a p IH]; intros s H.
  - exists s. reflexivity.
  - destruct s as [|b s]; simpl in H; [discriminate|].
    destruct (ascii_dec a b) as [->|]; [|discriminate].
    destruct (IH s H) as [rest ->]. exists rest. reflexivity.
Qed.

(** Under the legacy prefix, [split(":", 1)[1]] is the text after the
    prefix. *)
Lemma legacy_target (s : string) :
  startswith s "TRANSFER_REQUEST:" = true ->
  exists t, s = ("TRANSFER_REQUEST:" ++ t)%string /\ split_colon_1 s = Ok t.
Proof.
  intros H. destruct (prefix_app _ _ H) as [t ->].
  exists t. split; reflexivity.
Qed.

(** ** Dictionaries *)

(** A truthy [v.get(k)] is the member [v[k]]. *)
Lemma truthy_get_getitem (v g : pyval) (k : string) :
  py_get v k = Ok g -> truthy g = true -> py_getitem v k = Ok g.
Proof.
  destruct v; simpl; try discriminate.
  destruct (assoc_lookup k d) as [x|]; simpl; intros [= <-]; [reflexivity|].
  discriminate.
Qed.

(** ** The coordinator's scan *)

Section ScanFacts.

Variable json_loads : string -> option pyval.

#[local] Abbreviation inspect := (coordinator_inspect json_loads).
#[local] Abbreviation scan := (coordinator_scan json_loads).
#[local] Abbreviation structured_goto := (structured_goto json_loads).

(** The loop body by cases on the structured stage. *)
Lemma coordinator_inspect_cases (m : message) (s : string) :
  content m = CStr s -> is_blank s = false ->
  inspect m =
    match structured_goto (CStr s) with
    | Ok g => Ok (if truthy g then Some g else None)
    | Raise _ =>
        if startswith s "TRANSFER_REQUEST:"
        then rbind (split_colon_1 s) (fun t => Ok (Some (PStr t)))
        else Ok None
    end.
Proof.
  intros Hc Hb. unfold coordinator_inspect, structured_goto.
  rewrite Hc, Hb. simpl.
  destruct (json_loads s) as [v|]; simpl; [|reflexivity].
  destruct (py_get v "goto") as [g|e] eqn:Hg; simpl.
  - destruct (truthy g) eqn:Ht; [|reflexivity].
    now rewrite (truthy_get_getitem _ _ _ Hg Ht).
  - destruct v; simpl in Hg; try discriminate; injection Hg as <-; reflexivity.
Qed.

Lemma coordinator_inspect_skips (m : message) :
  (forall s, content m = CStr s -> is_blank s = true) -> inspect m = Ok None.
Proof.
  intros H. unfold coordinator_inspect.
  destruct (content m) as [s|bs]; [|reflexivity].
  now rewrite (H s eq_refl).
Qed.

(** The loop body never raises. *)
Lemma coordinator_inspect_total (m : message) :
  exists d, inspect m = Ok d.
Proof.
  destruct (content m) as [s|bs] eqn:Hc.
  - destruct (is_blank s) eqn:Hb.
    + exists None. apply coordinator_inspect_skips.
      intros s' Hs. congruence.
    + rewrite (coordinator_inspect_cases m s Hc Hb).
      destruct (structured_goto (CStr s)) as [g|e]; [eauto|].
      destruct (startswith s "TRANSFER_REQUEST:") eqn:Hp; [|eauto].
      destruct (legacy_target s Hp) as (t & _ & ->). simpl. eauto.
  - exists None. apply coordinator_inspect_skips. intros s Hs. congruence.
Qed.

Lemma coordinator_scan_cons (m : message) (rest : list message) (d : option pyval) :
  inspect m = Ok d ->
  scan (m :: rest) = match d with Some t => Ok t | None => scan rest end.
Proof. intros H. simpl. now rewrite H. Qed.

(** The scan never raises. *)
Lemma coordinator_scan_total (msgs : list message) :
  exists t, scan msgs = Ok t.
Proof.
  induction msgs as [|m rest IH]; [now exists PNone|].
  destruct (coordinator_inspect_total m) as [d Hd].
  rewrite (coordinator_scan_cons m rest d Hd).
  destruct d as [t|]; eauto.
Qed.

Lemma coordinator_transfer_target_total (r : response) :
  exists t, coordinator_transfer_target json_loads r = Ok t.
Proof.
  destruct r as [[[|m rest]|] others|v]; simpl; eauto.
  apply (coordinator_scan_total (m :: rest)).
Qed.



End ScanFacts.

(** ** The run of the coordinator node *)

Section CoordinatorRun.

Variable json_loads : string -> option pyval.
Variable ainvoke : agent -> list entry -> option config -> result response.

Ltac run_coordinator_tail :=
  unfold update_chat_container, modify, ret, bind, invoke, lift, state_messages;
  cbn [heap log_event set_chat_container];
  repeat match goal with
         | |- context [match ?x with Ok _ => _ | Raise _ => _ end] => destruct x
         | |- context [if truthy ?t then _ else _] => destruct (truthy t)
         end;
  reflexivity.

(** The node, step by step. *)
Lemma call_coordinator_agent_run (state : loc) (cfg : config) (w : world) :
  call_coordinator_agent json_loads ainvoke state cfg w =
    let a := resolved_active_agent w cfg in
    let w2 := after_resolution w cfg in
    if negb (py_in a coordinator_defaults)
    then (Ok {| update := UpdateState state; goto := a |}, w2)
    else
      let msgs := state_messages w state in
      let w3 := log_event (EvInvoke coordinator_agent msgs None) w2 in
      match ainvoke coordinator_agent msgs None with
      | Raise e => (Raise e, w3)
      | Ok r =>
          match coordinator_transfer_target json_loads r with
          | Ok t => (Ok {| update := UpdateResponse r;
                           goto := if truthy t then t else human |}, w3)
          | Raise e => (Raise e, w3)
          end
      end.
Proof.
  unfold call_coordinator_agent, after_resolution, resolved_active_agent,
    coordinator_defaults, config_key.
  unfold bind at 1. unfold try_except, bind at 1, read_item, except_Exception, ret.
  destruct (chat_container w !! (get_tenantId cfg, get_userId cfg, get_thread_id cfg))
    as [r|] eqn:Hr; cbn [fst snd].
  - set (a := get_activeAgent r (PStr "unknown")). clearbody a.
    destruct (py_eq_literal a LNone) eqn:Ha.
    + assert (a = PNone) as -> by (destruct a; try discriminate; reflexivity).
      cbn [py_eq_literal py_in existsb negb orb andb].
      unfold bind at 1. unfold bind at 1, gets. cbn [local_interactive_mode log_event].
      destruct (local_interactive_mode w) eqn:Hm; run_coordinator_tail.
    + cbn [andb]. unfold bind at 1.
      destruct (negb (py_in a _)) eqn:Hin; [reflexivity|].
      run_coordinator_tail.
  - cbn [py_eq_literal py_in existsb negb orb andb].
    unfold bind at 1. unfold bind at 1, gets. cbn [local_interactive_mode log_event].
    destruct (local_interactive_mode w) eqn:Hm; run_coordinator_tail.
Qed.

End CoordinatorRun.

(** ** The run of a specialist node *)

Section SpecialistRun.

Variable json_loads : string -> option pyval.
Variable ainvoke : agent -> list entry -> option config -> result response.

(** A specialist node, step by step. *)
Lemma specialist_run (a : agent) (state : loc) (cfg : config) (w : world) :
  a <> coordinator_agent ->
  node json_loads ainvoke a state cfg w =
    let msgs := invoke_messages a cfg (state_messages w state) in
    let w' := log_event (EvInvoke a msgs (invoke_config a cfg))
                (before_invoke a state cfg w) in
    match ainvoke a msgs (invoke_config a cfg) with
    | Ok r => (Ok {| update := UpdateResponse (returned_response a r);
                     goto := human |}, w')
    | Raise e => (Raise e, w')
    end.
Proof.
  intros Ha. destruct a; [contradiction| | |];
    unfold node, call_customer_support_agent, call_sales_agent,
      call_transactions_agent, before_invoke, after_patch, invoke_messages,
      invoke_config, returned_response;
    unfold bind, gets, patch_active_agent, append_message, modify, invoke, ret,
      state_messages;
    destruct (local_interactive_mode w) eqn:Hm;
    cbn [heap log_event set_chat_container set_heap];
    rewrite ?lookup_insert_eq; cbn [default];
    destruct (ainvoke _ _ _); reflexivity.
Qed.

End SpecialistRun.

(** ** Stripping the system messages *)

Lemma filter_out_system (msgs : list message) :
  List.filter is_SystemMessage
    (List.filter (fun m => negb (is_SystemMessage m)) msgs) = [].
Proof.
  induction msgs as [|m rest IH]; [reflexivity|].
  simpl. destruct (is_SystemMessage m) eqn:Hm; simpl; [assumption|].
  now rewrite Hm.
Qed.


Section Specialists.

Variable json_loads : string -> option pyval.
Variable ainvoke : agent -> list entry -> option config -> result response.

(** A specialist returns a command exactly when its agent returns. *)
Lemma specialist_returns (a : agent) (state : loc) (cfg : config) (w : world) :
  a <> coordinator_agent ->
  fst (node json_loads ainvoke a state cfg w) =
    match ainvoke a (invoke_messages a cfg (state_messages w state))
            (invoke_config a cfg) with
    | Ok r => Ok {| update := UpdateResponse (returned_response a r); goto := human |}
    | Raise e => Raise e
    end.
Proof.
  intros Ha. rewrite (specialist_run json_loads ainvoke a state cfg w Ha).
  cbv zeta. now destruct (ainvoke _ _ _).
Qed.

Lemma specialist_world (a : agent) (state : loc) (cfg : config) (w : world) :
  a <> coordinator_agent ->
  snd (node json_loads ainvoke a state cfg w) =
    log_event (EvInvoke a (invoke_messages a cfg (state_messages w state))
                 (invoke_config a cfg))
      (before_invoke a state cfg w).
Proof.
  intros Ha. rewrite (specialist_run json_loads ainvoke a state cfg w Ha).
  cbv zeta. now destruct (ainvoke _ _ _).
Qed.

End Specialists.

(** The message list of a command of the transactions node is the
    agent's list without its system messages. *)
Lemma transactions_command_messages
      (ainvoke : agent -> list entry -> option config -> result response)
      (state : loc) (cfg : config) (w : world)
      (cmd : Command) (msgs : list message) :
  fst (call_transactions_agent ainvoke state cfg w) = Ok cmd ->
  command_messages cmd = Some msgs ->
  exists answered others,
    ainvoke transactions_agent
      (state_messages w state
         ++ [transfer_context (get_tenantId cfg) (get_userId cfg) (get_thread_id cfg)])
      (Some cfg) = Ok (RespDict (Some answered) others)
    /\ msgs = List.filter (fun m => negb (is_SystemMessage m)) answered.
Proof.
  intros Hrun Hmsgs.
  assert (transactions_agent <> coordinator_agent) as Hne by discriminate.
  pose proof (specialist_returns (fun _ => None) ainvoke transactions_agent
                state cfg w Hne) as H.
  cbn [node invoke_messages invoke_config returned_response] in H.
  rewrite Hrun in H.
  destruct (ainvoke transactions_agent _ (Some cfg)) as [r|e]; [|discriminate].
  injection H as ->. unfold command_messages in Hmsgs. cbn [update] in Hmsgs.
  destruct r as [[answered|] others|v]; cbn [strip_system] in Hmsgs; try discriminate.
  injection Hmsgs as <-. now exists answered, others.
Qed.

(** ** Theorems about the specialist nodes *)

(** C3: every command a specialist node (customer support, sales,
    transactions) returns targets the human node; no specialist hands the
    turn to another agent. *)
Theorem specialist_goto_human
    (json_loads : string -> option pyval)
    (ainvoke : agent -> list entry -> option config -> result response)
    (a : agent) (state : loc) (cfg : config) (w w' : world) (cmd : Command) :
  a <> coordinator_agent ->
  node json_loads ainvoke a state cfg w = (Ok cmd, w') ->
  goto cmd = human.
Proof.
  intros Ha Hrun.
  pose proof (specialist_returns json_loads ainvoke a state cfg w Ha) as H.
  rewrite Hrun in H. cbn [fst] in H.
  destruct (ainvoke a _ _); [|discriminate].
  injection H as ->. reflexivity.
Qed.

Lemma specialist_goto_human_witness :
  sales_agent <> coordinator_agent /\
  exists cmd w',
    node sample_json_loads sample_ainvoke sales_agent 0 sample_config
      (sample_world false) = (Ok cmd, w')
    /\ goto cmd = human.
Proof.
  split; [discriminate|].
  eexists; eexists. split; [vm_compute; reflexivity|].
  apply (specialist_goto_human sample_json_loads sample_ainvoke sales_agent 0
           sample_config (sample_world false)
           (snd (node sample_json_loads sample_ainvoke sales_agent 0 sample_config
                   (sample_world false))));
    [discriminate | vm_compute; reflexivity].
Defined.



(** C10: the transactions node changes its input state in place.  The
    context message is appended to the state's own message list before the
    agent is invoked, the agent is invoked on the list that holds it, and
    it is still in the caller's state when the node is done, whether the
    agent returned or raised; the command returned carries no system
    message. *)
Theorem transactions_appends_to_input_state
    (ainvoke : agent -> list entry -> option config -> result response)
    (state : loc) (cfg : config) (w : world) :
  let ctx := transfer_context (get_tenantId cfg) (get_userId cfg) (get_thread_id cfg) in
  let run := call_transactions_agent ainvoke state cfg w in
  state_messages (snd run) state = state_messages w state ++ [ctx]
  /\ last (trace (snd run))
     = Some (EvInvoke transactions_agent (state_messages w state ++ [ctx]) (Some cfg))
  /\ (forall cmd msgs,
        fst run = Ok cmd -> command_messages cmd = Some msgs ->
        List.filter is_SystemMessage msgs = []).
Proof.
  intros ctx run.
  assert (transactions_agent <> coordinator_agent) as Hne by discriminate.
  pose proof (specialist_world (fun _ => None) ainvoke transactions_agent
                state cfg w Hne) as Hw.
  cbn [node invoke_messages invoke_config] in Hw. fold ctx in Hw. fold run in Hw.
  split; [|split].
  - rewrite Hw. unfold before_invoke, state_messages.
    cbn [heap log_event set_heap invoke_messages].
    now rewrite lookup_insert_eq.
  - rewrite Hw. cbn [trace log_event]. apply last_snoc.
  - intros cmd msgs Hrun Hmsgs.
    destruct (transactions_command_messages ainvoke state cfg w cmd msgs Hrun Hmsgs)
      as (answered & others & _ & ->).
    apply filter_out_system.
Qed.

(** The appended context message outlives a failed model call. *)
Example transactions_state_after_failed_call :
  let run := call_transactions_agent failing_ainvoke 0 sample_config (sample_world false) in
  fst run = Raise (Exception "model call failed")
  /\ state_messages (snd run) 0
     = [user_says "I want to open an account";
        transfer_context "Contoso" "Mark" "T1"].
Proof. vm_compute. split; reflexivity. Qed.

(** ** The session-store writes of the nodes *)

Lemma trace_before_invoke (a : agent) (state : loc) (cfg : config) (w : world) :
  trace (before_invoke a state cfg w) =
    trace w ++
      (if local_interactive_mode w
       then [EvPatchActiveAgent "cli-test" "cli-test" (get_thread_id cfg) (agent_name a)]
       else []).
Proof.
  unfold before_invoke, after_patch.
  destruct (local_interactive_mode w), a; cbn [trace log_event set_heap set_chat_container];
    rewrite ?app_nil_r; reflexivity.
Qed.

Lemma chat_container_before_invoke (a : agent) (state : loc) (cfg : config) (w : world) :
  chat_container (before_invoke a state cfg w) =
    if local_interactive_mode w
    then alter (set_activeAgent (PStr (agent_name a)))
           ("cli-test", "cli-test", get_thread_id cfg) (chat_container w)
    else chat_container w.
Proof.
  unfold before_invoke, after_patch.
  destruct (local_interactive_mode w), a; reflexivity.
Qed.

Lemma patches_before_invoke_events (a : agent) (cfg : config) (mode : bool)
      (msgs : list entry) :
  patches_before_invoke a (get_thread_id cfg) (specialist_events a cfg mode msgs) = mode.
Proof.
  unfold specialist_events. destruct mode; cbn [app patches_before_invoke].
  - now rewrite !String.eqb_refl.
  - now rewrite String.eqb_refl.
Qed.

(** C8, as the code has it: a specialist node writes its own name as the
    active agent only in local interactive mode.  With the mode on, the
    node calls [patch_active_agent] for the thread, under the fixed tenant
    and user "cli-test", before it invokes its agent; with the mode off it
    invokes the agent and leaves the session store as it was. *)
Theorem specialist_patches_in_local_mode
    (json_loads : string -> option pyval)
    (ainvoke : agent -> list entry -> option config -> result response)
    (a : agent) (state : loc) (cfg : config) (w : world) :
  a <> coordinator_agent ->
  let w' := snd (node json_loads ainvoke a state cfg w) in
  let new := specialist_events a cfg (local_interactive_mode w) (state_messages w state) in
  trace w' = trace w ++ new
  /\ patches_before_invoke a (get_thread_id cfg) new = local_interactive_mode w
  /\ chat_container w' =
       if local_interactive_mode w
       then alter (set_activeAgent (PStr (agent_name a)))
              ("cli-test", "cli-test", get_thread_id cfg) (chat_container w)
       else chat_container w.
Proof.
  intros Ha w' new. subst w' new.
  rewrite (specialist_world json_loads ainvoke a state cfg w Ha).
  cbn [trace chat_container log_event].
  rewrite trace_before_invoke, chat_container_before_invoke.
  split; [|split].
  - unfold specialist_events. now rewrite <- app_assoc.
  - apply patches_before_invoke_events.
  - reflexivity.
Qed.

Lemma specialist_patches_in_local_mode_witness :
  customer_support_agent <> coordinator_agent /\
  let w := sample_world_with (Some (PStr "unknown")) true in
  let w' := snd (node sample_json_loads sample_ainvoke customer_support_agent 0
                   sample_config w) in
  trace w' =
    [EvPatchActiveAgent "cli-test" "cli-test" "T1" "customer_support_agent";
     EvInvoke customer_support_agent [user_says "I want to open an account"] None].
Proof.
  split; [discriminate|].
  intros w w'.
  assert (customer_support_agent <> coordinator_agent) as Hne by discriminate.
  exact (proj1 (specialist_patches_in_local_mode sample_json_loads sample_ainvoke
                  customer_support_agent 0 sample_config w Hne)).
Defined.

(** C8 as stated fails: in the mode the module starts in
    ([local_interactive_mode = False]) the sales node invokes its agent
    without any write to the session store. *)
Lemma specialist_skips_patch_outside_local_mode :
  let w := sample_world_with (Some (PStr "sales_agent")) false in
  let w' := snd (node sample_json_loads sample_ainvoke sales_agent 0 sample_config w) in
  trace w' = [EvInvoke sales_agent [user_says "I want to open an account"]
                (Some sample_config)]
  /\ patches_before_invoke sales_agent "T1" (trace w') = false
  /\ chat_container w' = chat_container w.
Proof.
  intros w w'.
  assert (sales_agent <> coordinator_agent) as Hne by discriminate.
  assert (trace w' = [EvInvoke sales_agent [user_says "I want to open an account"]
                        (Some sample_config)]) as Htrace.
  { subst w'.
    rewrite (specialist_world sample_json_loads sample_ainvoke sales_agent 0
               sample_config w Hne).
    cbn [trace log_event]. rewrite trace_before_invoke. reflexivity. }
  split; [exact Htrace|]. split.
  - rewrite Htrace. reflexivity.
  - subst w'.
    rewrite (specialist_world sample_json_loads sample_ainvoke sales_agent 0
               sample_config w Hne).
    cbn [chat_container log_event]. rewrite chat_container_before_invoke.
    reflexivity.
Qed.

(** ** Theorems about the coordinator node *)

Section CoordinatorFacts.

Variable json_loads : string -> option pyval.
Variable ainvoke : agent -> list entry -> option config -> result response.

#[local] Abbreviation run := (call_coordinator_agent json_loads ainvoke).

Lemma trace_after_resolution (w : world) (cfg : config) :
  invoked (trace (after_resolution w cfg)) = invoked (trace w).
Proof.
  assert (forall tr e, invoked [e] = [] -> invoked (tr ++ [e]) = invoked tr) as Hsnoc.
  { intros tr e He. induction tr as [|x tr IH]; [assumption|].
    destruct x; simpl; now rewrite IH. }
  unfold after_resolution.
  destruct (py_eq_literal _ _ && local_interactive_mode w);
    cbn [trace log_event set_chat_container]; rewrite !Hsnoc; reflexivity.
Qed.

Lemma invoked_snoc (tr : list event) (a : agent) (msgs : list entry)
      (c : option config) :
  invoked (tr ++ [EvInvoke a msgs c]) = invoked tr ++ [a].
Proof.
  induction tr as [|x tr IH]; [reflexivity|].
  destruct x; simpl; now rewrite IH.
Qed.

(** Skip routing: a resolved agent outside the defaults is the target, and
    no agent is invoked. *)
Lemma coordinator_skips (state : loc) (cfg : config) (w : world) :
  py_in (resolved_active_agent w cfg) coordinator_defaults = false ->
  run state cfg w =
    (Ok {| update := UpdateState state; goto := resolved_active_agent w cfg |},
     log_event (EvReadItem (config_key cfg)) w).
Proof.
  intros Hin. rewrite call_coordinator_agent_run. cbv zeta. rewrite Hin. cbn [negb].
  unfold after_resolution.
  destruct (resolved_active_agent w cfg); try discriminate; reflexivity.
Qed.

(** Otherwise the coordinator agent is invoked on the state's messages,
    and the node returns or raises as the agent does. *)
Lemma coordinator_invokes (state : loc) (cfg : config) (w : world) :
  py_in (resolved_active_agent w cfg) coordinator_defaults = true ->
  let msgs := state_messages w state in
  trace (snd (run state cfg w)) =
    trace (after_resolution w cfg) ++ [EvInvoke coordinator_agent msgs None]
  /\ chat_container (snd (run state cfg w)) = chat_container (after_resolution w cfg)
  /\ match ainvoke coordinator_agent msgs None with
     | Ok r => exists t,
         coordinator_transfer_target json_loads r = Ok t
         /\ fst (run state cfg w) =
              Ok {| update := UpdateResponse r; goto := if truthy t then t else human |}
     | Raise e => fst (run state cfg w) = Raise e
     end.
Proof.
  intros Hin msgs. rewrite call_coordinator_agent_run. cbv zeta. rewrite Hin. cbn [negb].
  fold msgs.
  destruct (ainvoke coordinator_agent msgs None) as [r|e]; [|now repeat split].
  destruct (coordinator_transfer_target_total json_loads r) as [t Ht]. rewrite Ht.
  repeat split. now exists t.
Qed.

End CoordinatorFacts.

Lemma resolved_of_persisted (w : world) (cfg : config) (a : pyval) :
  persisted_active_agent w cfg = Some a -> resolved_active_agent w cfg = a.
Proof.
  unfold persisted_active_agent, resolved_active_agent, get_activeAgent.
  destruct (chat_container w !! config_key cfg) as [r|]; [|discriminate].
  now intros ->.
Qed.

Lemma resolved_without_persisted (w : world) (cfg : config) :
  persisted_active_agent w cfg = None ->
  py_in (resolved_active_agent w cfg) coordinator_defaults = true.
Proof.
  unfold persisted_active_agent, resolved_active_agent, get_activeAgent.
  destruct (chat_container w !! config_key cfg) as [r|]; [|reflexivity].
  now intros ->.
Qed.

(** C1: when the row persisted for the thread has an active agent outside
    [None], "unknown" and "coordinator_agent", the node returns a command
    for that agent and invokes no agent; when there is no row, no
    [activeAgent] in it, or one of those three values, the coordinator agent
    is invoked, once, and no other agent is. *)
Theorem coordinator_routes_by_persisted_agent
    (json_loads : string -> option pyval)
    (ainvoke : agent -> list entry -> option config -> result response)
    (state : loc) (cfg : config) (w : world) :
  let run := call_coordinator_agent json_loads ainvoke state cfg w in
  (forall a,
      persisted_active_agent w cfg = Some a ->
      py_in a coordinator_defaults = false ->
      fst run = Ok {| update := UpdateState state; goto := a |}
      /\ invoked (trace (snd run)) = invoked (trace w))
  /\ ((persisted_active_agent w cfg = None
       \/ exists a, persisted_active_agent w cfg = Some a
                    /\ py_in a coordinator_defaults = true) ->
      invoked (trace (snd run)) = invoked (trace w) ++ [coordinator_agent]
      /\ last (trace (snd run))
         = Some (EvInvoke coordinator_agent (state_messages w state) None)).
Proof.
  intros run. subst run. split.
  - intros a Hp Hin. pose proof (resolved_of_persisted w cfg a Hp) as Hr.
    rewrite <- Hr in Hin.
    rewrite (coordinator_skips json_loads ainvoke state cfg w Hin).
    cbn [fst snd trace log_event]. rewrite Hr. split; [reflexivity|].
    clear. induction (trace w) as [|x tr IH]; [reflexivity|].
    destruct x; simpl; now rewrite IH.
  - intros H.
    assert (py_in (resolved_active_agent w cfg) coordinator_defaults = true) as Hin.
    { destruct H as [Hn|(a & Hp & Ha)].
      - now apply resolved_without_persisted.
      - now rewrite (resolved_of_persisted w cfg a Hp). }
    destruct (coordinator_invokes json_loads ainvoke state cfg w Hin) as (Htr & _ & _).
    rewrite Htr, invoked_snoc, trace_after_resolution, last_snoc. now split.
Qed.

Lemma coordinator_routes_by_persisted_agent_witness :
  (let w := sample_world_with (Some (PStr "sales_agent")) false in
   let run := call_coordinator_agent sample_json_loads sample_ainvoke 0 sample_config w in
   persisted_active_agent w sample_config = Some (PStr "sales_agent")
   /\ py_in (PStr "sales_agent") coordinator_defaults = false
   /\ fst run = Ok {| update := UpdateState 0; goto := PStr "sales_agent" |}
   /\ invoked (trace (snd run)) = [])
  /\ (let w := sample_world_with (Some (PStr "unknown")) false in
      let run := call_coordinator_agent sample_json_loads sample_ainvoke 0 sample_config w in
      persisted_active_agent w sample_config = Some (PStr "unknown")
      /\ py_in (PStr "unknown") coordinator_defaults = true
      /\ invoked (trace (snd run)) = [coordinator_agent]).
Proof.
  split.
  - intros w run.
    assert (persisted_active_agent w sample_config = Some (PStr "sales_agent")) as Hp
      by (vm_compute; reflexivity).
    assert (py_in (PStr "sales_agent") coordinator_defaults = false) as Hin
      by reflexivity.
    split; [exact Hp|]. split; [exact Hin|].
    exact (proj1 (coordinator_routes_by_persisted_agent sample_json_loads
                    sample_ainvoke 0 sample_config w) (PStr "sales_agent") Hp Hin).
  - intros w run.
    assert (persisted_active_agent w sample_config = Some (PStr "unknown")) as Hp
      by (vm_compute; reflexivity).
    assert (py_in (PStr "unknown") coordinator_defaults = true) as Hin
      by reflexivity.
    split; [exact Hp|]. split; [exact Hin|].
    exact (proj1 (proj2 (coordinator_routes_by_persisted_agent sample_json_loads
                           sample_ainvoke 0 sample_config w)
                    (or_intror (ex_intro _ (PStr "unknown") (conj Hp Hin))))).
Defined.


Lemma resolved_on_miss (w : world) (cfg : config) :
  chat_container w !! config_key cfg = None -> resolved_active_agent w cfg = PNone.
Proof. unfold resolved_active_agent. now intros ->. Qed.

(** [get_active_agent] by cases: the scan's target when it is truthy, else
    the stored active agent, else "unknown". *)
Lemma get_active_agent_run (json_loads : string -> option pyval)
      (state : loc) (cfg : config) (w : world) :
  get_active_agent json_loads state cfg w =
    let a := active_agent_scan json_loads (rev (state_messages w state)) PNone in
    if truthy a then (Ok a, w)
    else (Ok match chat_container w !! config_key cfg with
             | Some r => get_activeAgent r (PStr "unknown")
             | None => PStr "unknown"
             end,
          log_event (EvReadItem (config_key cfg)) w).
Proof.
  unfold get_active_agent, config_key. unfold bind at 1, gets. cbv zeta.
  destruct (truthy (active_agent_scan _ _ _)); cbn [negb]; [reflexivity|].
  unfold try_except, bind, read_item, except_Exception, ret.
  now destruct (chat_container w !! _).
Qed.



(** ** The default row *)

(** C9, as the code has it: when the thread has no row, the coordinator
    node writes the default row, with [activeAgent = "unknown"], only in
    local interactive mode, and under the fixed tenant and user "cli-test";
    outside that mode it leaves the session store as it was. *)
Theorem default_row_written_in_local_mode
    (json_loads : string -> option pyval)
    (ainvoke : agent -> list entry -> option config -> result response)
    (state : loc) (cfg : config) (w : world) :
  chat_container w !! config_key cfg = None ->
  let w' := snd (call_coordinator_agent json_loads ainvoke state cfg w) in
  chat_container w' =
    (if local_interactive_mode w
     then <[("cli-test", "cli-test", get_thread_id cfg)
            := default_record (get_thread_id cfg)]> (chat_container w)
     else chat_container w)
  /\ rec_activeAgent (default_record (get_thread_id cfg)) = Some (PStr "unknown").
Proof.
  intros Hmiss w'. subst w'.
  pose proof (resolved_on_miss w cfg Hmiss) as Hres.
  assert (py_in (resolved_active_agent w cfg) coordinator_defaults = true) as Hin
    by now rewrite Hres.
  destruct (coordinator_invokes json_loads ainvoke state cfg w Hin) as (_ & -> & _).
  split; [|reflexivity].
  unfold after_resolution. rewrite Hres. cbn [py_eq_literal andb].
  now destruct (local_interactive_mode w).
Qed.

Lemma default_row_written_in_local_mode_witness :
  let w := sample_world true in
  let w' := snd (call_coordinator_agent sample_json_loads sample_ainvoke 0
                   sample_config w) in
  chat_container w !! config_key sample_config = None
  /\ chat_container w' !! ("cli-test", "cli-test", "T1") = Some (default_record "T1")
  /\ chat_container w' !! config_key sample_config = None.
Proof.
  intros w w'.
  assert (chat_container w !! config_key sample_config = None) as Hmiss
    by (vm_compute; reflexivity).
  split; [exact Hmiss|].
  subst w'.
  rewrite (proj1 (default_row_written_in_local_mode sample_json_loads sample_ainvoke
                    0 sample_config w Hmiss)).
  split; vm_compute; reflexivity.
Defined.

(** C9 as stated fails: in the mode the module starts in, a turn for a
    thread without a row leaves the session store empty. *)
Lemma no_default_row_outside_local_mode :
  let w := sample_world false in
  let w' := snd (call_coordinator_agent sample_json_loads sample_ainvoke 0
                   sample_config w) in
  chat_container w !! config_key sample_config = None
  /\ chat_container w' = ∅
  /\ persisted_active_agent w' sample_config = None.
Proof.
  intros w w'.
  assert (chat_container w !! config_key sample_config = None) as Hmiss
    by apply lookup_empty.
  assert (py_in (resolved_active_agent w sample_config) coordinator_defaults = true)
    as Hin by now rewrite (resolved_on_miss w sample_config Hmiss).
  assert (chat_container w' = ∅) as Hempty.
  { subst w'.
    destruct (coordinator_invokes sample_json_loads sample_ainvoke 0 sample_config
                w Hin) as (_ & -> & _).
    unfold after_resolution. rewrite (resolved_on_miss w sample_config Hmiss).
    reflexivity. }
  split; [exact Hmiss|]. split; [exact Hempty|].
  unfold persisted_active_agent. rewrite Hempty. now rewrite lookup_empty.
Qed.

(** ** The scans and the directive format *)

Section DirectiveFacts.

Variable json_loads : string -> option pyval.

#[local] Abbreviation inspect := (coordinator_inspect json_loads).
#[local] Abbreviation scan := (coordinator_scan json_loads).
#[local] Abbreviation structured := (structured_goto json_loads).
#[local] Abbreviation agent_scan := (active_agent_scan json_loads).





End DirectiveFacts.




(** ** Transfer-directive extraction *)




(** ** Capability bootstrap *)

Section BootstrapFacts.

Variable get_shared_mcp_client : result shared_client.
Variable shared_get_tools : shared_client -> result (list tool).
Variable new_lightweight_client : result mcp_client.
Variable lightweight_get_tools : mcp_client -> result (list tool).

#[local] Abbreviation bootstrap :=
  (get_persistent_mcp_client get_shared_mcp_client shared_get_tools
     new_lightweight_client lightweight_get_tools).
#[local] Abbreviation primary_provider :=
  (primary_provider get_shared_mcp_client shared_get_tools).
#[local] Abbreviation fallback_provider :=
  (fallback_provider new_lightweight_client lightweight_get_tools).
#[local] Abbreviation primary_attempts := (primary_attempts get_shared_mcp_client).
#[local] Abbreviation fallback_attempts := (fallback_attempts new_lightweight_client).

(** The bootstrap of an uninitialised module, by cases on the providers. *)
Lemma bootstrap_run (g : globals) :
  _persistent_mcp_client g = None ->
  attempts (snd (bootstrap g)) =
    attempts g ++ primary_attempts
      ++ (if is_ok primary_provider then [] else fallback_attempts)
  /\ match primary_provider, fallback_provider with
     | Ok tools, _ => exists sc,
         get_shared_mcp_client = Ok sc
         /\ fst (bootstrap g) = Ok (Some (SharedMCPClientWrapper sc), Some tools)
     | Raise _, Ok tools => exists cl,
         new_lightweight_client = Ok cl
         /\ fst (bootstrap g) = Ok (Some cl, Some tools)
     | Raise _, Raise _ => fst (bootstrap g) = Raise both_failed
     end.
Proof.
  intros Hnone.
  unfold get_persistent_mcp_client, primary_provider, fallback_provider,
    primary_attempts, fallback_attempts, init_shared, init_lightweight,
    bind, try_except, gets, modify, attempt, raise, except_Exception, ret.
  rewrite Hnone.
  destruct get_shared_mcp_client as [sc|e1]; cbn [rbind is_ok];
    [destruct (shared_get_tools sc) as [tools|e2]; cbn [is_ok]|];
    try (destruct new_lightweight_client as [cl|e3]; cbn [rbind];
         [destruct (lightweight_get_tools cl) as [tools'|e4]|]);
    cbn [fst snd attempts log_attempt set_shared_mcp_client set_mcp_tools_cache
           set_persistent_mcp_client _persistent_mcp_client _mcp_tools_cache];
    (split; [rewrite <- ?app_assoc, ?app_nil_r; reflexivity|]);
    eauto.
Qed.

End BootstrapFacts.

(** C7: the bootstrap of a module without a client attempts the primary
    (shared) provider first, attempts the lightweight fallback exactly
    when the primary one failed, and raises, with the both-failed error, if
    and only if both providers failed. *)
Theorem bootstrap_falls_back_then_aborts
    (get_shared_mcp_client : result shared_client)
    (shared_get_tools : shared_client -> result (list tool))
    (new_lightweight_client : result mcp_client)
    (lightweight_get_tools : mcp_client -> result (list tool))
    (g : globals) :
  _persistent_mcp_client g = None ->
  let run := get_persistent_mcp_client get_shared_mcp_client shared_get_tools
               new_lightweight_client lightweight_get_tools g in
  let primary := primary_provider get_shared_mcp_client shared_get_tools in
  let fallback := fallback_provider new_lightweight_client lightweight_get_tools in
  attempts (snd run) =
    attempts g ++ primary_attempts get_shared_mcp_client
      ++ (if is_ok primary then []
          else fallback_attempts new_lightweight_client)
  /\ ((exists e, fst run = Raise e) <-> is_ok primary = false /\ is_ok fallback = false)
  /\ (forall e, fst run = Raise e -> e = both_failed).
Proof.
  intros Hnone run primary fallback. subst run primary fallback.
  destruct (bootstrap_run get_shared_mcp_client shared_get_tools
              new_lightweight_client lightweight_get_tools g Hnone) as [Hatt Hres].
  split; [exact Hatt|].
  destruct (primary_provider _ _) as [t1|e1];
    [|destruct (fallback_provider _ _) as [t2|e2]]; cbn [is_ok].
  - destruct Hres as (sc & _ & ->). split.
    + split; [intros [e He]; discriminate|intros [H _]; discriminate].
    + intros e He. discriminate.
  - destruct Hres as (cl & _ & ->). split.
    + split; [intros [e He]; discriminate|intros [_ H]; discriminate].
    + intros e He. discriminate.
  - rewrite Hres. split.
    + split; [now split|]. intros _. now exists both_failed.
    + now intros e [= <-].
Qed.

Lemma bootstrap_falls_back_then_aborts_witness :
  let unreachable : result shared_client := Raise (Exception "connection refused") in
  let lightweight := MultiServerMCPClient "python3"
                       ["-m"; "src.app.tools.lightweight_mcp_server"] "stdio" in
  let tools := [{| tool_is_dict := false; tool_name := Some "bank_balance" |}] in
  _persistent_mcp_client initial_globals = None
  /\ (let run := get_persistent_mcp_client unreachable (fun _ => Ok tools)
                   (Ok lightweight) (fun _ => Ok tools) initial_globals in
      fst run = Ok (Some lightweight, Some tools)
      /\ attempts (snd run)
         = [EvGetSharedClient; EvNewLightweightClient; EvLightweightGetTools])
  /\ (let run := get_persistent_mcp_client unreachable (fun _ => Ok tools)
                   (Ok lightweight) (fun _ => Raise (Exception "no server"))
                   initial_globals in
      fst run = Raise both_failed).
Proof.
  intros unreachable lightweight tools.
  assert (_persistent_mcp_client initial_globals = None) as Hnone by reflexivity.
  split; [exact Hnone|]. split.
  - intros run. split; [reflexivity|].
    exact (proj1 (bootstrap_falls_back_then_aborts unreachable (fun _ => Ok tools)
                    (Ok lightweight) (fun _ => Ok tools) initial_globals Hnone)).
  - intros run.
    pose proof (bootstrap_falls_back_then_aborts unreachable (fun _ => Ok tools)
                  (Ok lightweight) (fun _ => Raise (Exception "no server"))
                  initial_globals Hnone) as (_ & Hiff & Hmsg).
    destruct (proj2 Hiff (conj eq_refl eq_refl)) as [e He].
    subst run. rewrite He. f_equal. exact (Hmsg e He).
Defined.

(** * Further facts *)

(** ** Tool filtering *)

Lemma startswith_app (s p : string) :
  startswith s p = true <-> exists rest, s = (p ++ rest)%string.
Proof.
  split; [apply prefix_app|].
  intros [rest ->]. unfold startswith.
  induction p as [|a p IH]; simpl; [now destruct rest|].
  destruct (ascii_dec a a); [exact IH|contradiction].
Qed.


Lemma matches_prefix_spec (name : string) (prefixes : list string) :
  matches_prefix name prefixes = true
  <-> exists p rest, In p prefixes /\ name = (p ++ rest)%string.
Proof.
  unfold matches_prefix. rewrite existsb_exists. split.
  - intros (p & Hin & Hp). apply startswith_app in Hp as [rest ->]. eauto.
  - intros (p & rest & Hin & ->). exists p. split; [exact Hin|].
    apply startswith_app. eauto.
Qed.

Lemma matches_prefix_app (name : string) (ps qs : list string) :
  matches_prefix name (ps ++ qs) = matches_prefix name ps || matches_prefix name qs.
Proof. apply existsb_app. Qed.

Lemma filter_tools_by_prefix_filter (tools : list tool) (prefixes : list string) :
  filter_tools_by_prefix tools prefixes
  = List.filter (fun t => matches_prefix (get_tool_name t) prefixes) tools.
Proof.
  induction tools as [|t rest IH]; [reflexivity|].
  simpl. now rewrite IH.
Qed.

(** X1: a tool is selected exactly when it is one of the tools given and
    its name is some prefix of the list followed by any text. *)
Theorem filter_tools_by_prefix_In (tools : list tool) (prefixes : list string)
    (t : tool) :
  In t (filter_tools_by_prefix tools prefixes)
  <-> In t tools
      /\ exists p rest, In p prefixes /\ get_tool_name t = (p ++ rest)%string.
Proof.
  rewrite filter_tools_by_prefix_filter, filter_In.
  now rewrite matches_prefix_spec.
Qed.

(** X2: the selection keeps the tools in the order given, works through a
    concatenation part by part, selects nothing new when applied again, and
    grows with the prefix list. *)
Theorem filter_tools_by_prefix_order (tools more : list tool)
    (prefixes extra : list string) :
  sublist (filter_tools_by_prefix tools prefixes) tools
  /\ filter_tools_by_prefix (tools ++ more) prefixes
     = filter_tools_by_prefix tools prefixes ++ filter_tools_by_prefix more prefixes
  /\ filter_tools_by_prefix (filter_tools_by_prefix tools prefixes) prefixes
     = filter_tools_by_prefix tools prefixes
  /\ sublist (filter_tools_by_prefix tools prefixes)
       (filter_tools_by_prefix tools (prefixes ++ extra)).
Proof.
  split; [|split; [|split]].
  - induction tools as [|t rest IH]; [constructor|].
    simpl. destruct (matches_prefix _ _); now constructor.
  - induction tools as [|t rest IH]; [reflexivity|].
    simpl. destruct (matches_prefix _ _); simpl; now rewrite IH.
  - induction tools as [|t rest IH]; [reflexivity|].
    simpl. destruct (matches_prefix _ _) eqn:Hm; simpl; [|exact IH].
    now rewrite Hm, IH.
  - induction tools as [|t rest IH]; [constructor|].
    cbn [filter_tools_by_prefix]. rewrite matches_prefix_app.
    destruct (matches_prefix _ prefixes); cbn [orb]; [now constructor|].
    destruct (matches_prefix _ extra); [now constructor|exact IH].
Qed.

(** X3: with no prefix nothing is selected; with the empty prefix in the
    list every tool is, named or not; and a tool without a name is selected
    only through the empty prefix. *)
Theorem filter_tools_by_prefix_edges (tools : list tool) (prefixes : list string)
    (t : tool) :
  filter_tools_by_prefix tools [] = []
  /\ (In "" prefixes -> filter_tools_by_prefix tools prefixes = tools)
  /\ (tool_name t = None ->
      In t (filter_tools_by_prefix tools prefixes) -> In "" prefixes).
Proof.
  split; [|split].
  - induction tools as [|x rest IH]; [reflexivity|exact IH].
  - intros Hin. induction tools as [|x rest IH]; [reflexivity|].
    simpl. assert (matches_prefix (get_tool_name x) prefixes = true) as ->.
    { apply matches_prefix_spec. exists "", (get_tool_name x). now split. }
    now rewrite IH.
  - intros Hname Hin. apply filter_tools_by_prefix_In in Hin as (_ & p & rest & Hp & Heq).
    unfold get_tool_name in Heq. rewrite Hname in Heq.
    destruct (tool_is_dict t); cbn [default] in Heq;
      destruct p; try discriminate; exact Hp.
Qed.

Lemma filter_tools_by_prefix_edges_witness :
  let unnamed := {| tool_is_dict := true; tool_name := None |} in
  let balance := {| tool_is_dict := false; tool_name := Some "bank_balance" |} in
  In "" ["bank_"; ""]
  /\ filter_tools_by_prefix [unnamed; balance] ["bank_"; ""] = [unnamed; balance]
  /\ filter_tools_by_prefix [unnamed; balance] ["bank_"] = [balance].
Proof.
  intros unnamed balance.
  assert (In "" ["bank_"; ""]) as Hin by (right; now left).
  split; [exact Hin|]. split; [|reflexivity].
  exact (proj1 (proj2 (filter_tools_by_prefix_edges [unnamed; balance]
                         ["bank_"; ""] unnamed)) Hin).
Defined.

(** ** The agents' tool sets *)

Lemma agent_tools_In (a : agent) (all_tools : list tool) (t : tool) :
  In t (agent_tools a all_tools)
  <-> In t all_tools /\ matches_prefix (get_tool_name t) (agent_prefixes a) = true.
Proof.
  unfold agent_tools. now rewrite filter_tools_by_prefix_filter, filter_In.
Qed.

(** X4: the coordinator receives exactly the tools whose name starts with
    "transfer_to_", so every transfer tool a specialist receives is one of
    the coordinator's. *)
Theorem coordinator_holds_every_transfer_tool (all_tools : list tool) (t : tool) :
  (In t (agent_tools coordinator_agent all_tools)
   <-> In t all_tools /\ startswith (get_tool_name t) "transfer_to_" = true)
  /\ (forall a,
        In t (agent_tools a all_tools) ->
        startswith (get_tool_name t) "transfer_to_" = true ->
        In t (agent_tools coordinator_agent all_tools)).
Proof.
  assert (In t (agent_tools coordinator_agent all_tools)
          <-> In t all_tools /\ startswith (get_tool_name t) "transfer_to_" = true)
    as Hcoord.
  { rewrite agent_tools_In. cbn [agent_prefixes matches_prefix existsb].
    now rewrite orb_false_r. }
  split; [exact Hcoord|].
  intros a Hin Ht. apply Hcoord. split; [|exact Ht].
  now apply agent_tools_In in Hin.
Qed.

Lemma coordinator_holds_every_transfer_tool_witness :
  let to_sales := {| tool_is_dict := false; tool_name := Some "transfer_to_sales_agent" |} in
  let all_tools := [{| tool_is_dict := false; tool_name := Some "bank_balance" |};
                    to_sales] in
  In to_sales (agent_tools customer_support_agent all_tools)
  /\ startswith (get_tool_name to_sales) "transfer_to_" = true
  /\ In to_sales (agent_tools coordinator_agent all_tools).
Proof.
  intros to_sales all_tools.
  assert (In to_sales (agent_tools customer_support_agent all_tools)) as Hin
    by (vm_compute; now left).
  assert (startswith (get_tool_name to_sales) "transfer_to_" = true) as Ht
    by reflexivity.
  split; [exact Hin|]. split; [exact Ht|].
  exact (proj2 (coordinator_holds_every_transfer_tool all_tools to_sales)
           customer_support_agent Hin Ht).
Defined.

(** Two prefixes that differ at their first character have no common
    extension. *)
Lemma matches_one_prefix_only (name : string) (a b : ascii) (p q : string) :
  a <> b ->
  startswith name (String a p) = true -> startswith name (String b q) = false.
Proof.
  intros Hab Hp. apply startswith_app in Hp as [rest ->].
  unfold startswith. simpl. destruct (ascii_dec b a) as [->|]; [contradiction|].
  reflexivity.
Qed.

(** X5: no specialist receives a transfer tool to itself, and the
    transactions agent can only be handed a transfer tool to customer
    support: the name of any transfer tool it holds starts with
    "transfer_to_customer_support_agent". *)
Theorem specialist_transfer_tools (all_tools : list tool) (t : tool) :
  (forall a, a <> coordinator_agent ->
             In t (agent_tools a all_tools) ->
             get_tool_name t <> ("transfer_to_" ++ agent_name a)%string)
  /\ (In t (agent_tools transactions_agent all_tools) ->
      startswith (get_tool_name t) "transfer_to_" = true ->
      startswith (get_tool_name t) "transfer_to_customer_support_agent" = true).
Proof.
  split.
  - intros a Ha Hin Hname. apply agent_tools_In in Hin as [_ Hm].
    rewrite Hname in Hm. destruct a; [contradiction| | |]; vm_compute in Hm;
      discriminate.
  - intros Hin Ht. apply agent_tools_In in Hin as [_ Hm].
    cbn [agent_prefixes matches_prefix existsb] in Hm.
    assert (forall q, startswith (get_tool_name t) (String "b" q) = false) as Hb.
    { intros q. apply (matches_one_prefix_only _ "t" "b" "ransfer_to_");
        [discriminate|exact Ht]. }
    assert (forall q, startswith (get_tool_name t) (String "g" q) = false) as Hg.
    { intros q. apply (matches_one_prefix_only _ "t" "g" "ransfer_to_");
        [discriminate|exact Ht]. }
    rewrite (Hb "ank_transfer"), (Hg "et_transaction_history"),
      (Hb "ank_balance") in Hm.
    cbn [orb] in Hm. now rewrite orb_false_r in Hm.
Qed.

Lemma specialist_transfer_tools_witness :
  let to_support := {| tool_is_dict := true;
                       tool_name := Some "transfer_to_customer_support_agent" |} in
  let all_tools := [{| tool_is_dict := true; tool_name := Some "transfer_to_sales_agent" |};
                    to_support] in
  In to_support (agent_tools transactions_agent all_tools)
  /\ agent_tools transactions_agent all_tools = [to_support]
  /\ get_tool_name to_support <> "transfer_to_transactions_agent".
Proof.
  intros to_support all_tools.
  assert (In to_support (agent_tools transactions_agent all_tools)) as Hin
    by (vm_compute; now left).
  split; [exact Hin|]. split; [reflexivity|].
  assert (transactions_agent <> coordinator_agent) as Hne by discriminate.
  exact (proj1 (specialist_transfer_tools all_tools to_support)
           transactions_agent Hne Hin).
Defined.

(** ** Prompts *)

Lemma is_blank_app (a b : string) :
  is_blank (a ++ b) = is_blank a && is_blank b.
Proof.
  induction a as [|c a IH]; [reflexivity|].
  simpl. now rewrite IH, andb_assoc.
Qed.

Lemma lstrip_split (s : string) :
  exists l, s = (l ++ lstrip s)%string /\ is_blank l = true
            /\ head_is_space (lstrip s) = false.
Proof.
  induction s as [|c s (l & Hs & Hl & Hh)]; [now exists ""|].
  simpl. destruct (is_space c) eqn:Hc.
  - exists (String c l). split; [|split].
    + rewrite Hs at 1. reflexivity.
    + cbn [is_blank]. now rewrite Hc.
    + exact Hh.
  - exists "". cbn [append is_blank head_is_space]. now rewrite Hc.
Qed.

Lemma rstrip_split (s : string) :
  exists r, s = (rstrip s ++ r)%string /\ is_blank r = true
            /\ last_is_space (rstrip s) = false
            /\ (head_is_space s = false -> head_is_space (rstrip s) = false).
Proof.
  induction s as [|c s (r & Hs & Hr & Hl & _)]; [now exists ""|].
  cbn [rstrip]. destruct (rstrip s) as [|d kept] eqn:Hk.
  - change (s = r) in Hs. subst r. destruct (is_space c) eqn:Hc.
    + exists (String c s). repeat split; try reflexivity.
      cbn [is_blank]. now rewrite Hc, Hr.
    + exists s. repeat split; try reflexivity; try assumption.
      now intros _.
  - exists r. repeat split.
    + rewrite Hs at 1. reflexivity.
    + exact Hr.
    + exact Hl.
    + now intros H.
Qed.

Lemma lstrip_blank (s : string) : is_blank s = true -> lstrip s = "".
Proof.
  induction s as [|c s IH]; [reflexivity|].
  simpl. destruct (is_space c); [exact IH|discriminate].
Qed.

(** X6: [strip] removes exactly the whitespace at the two ends: the text
    is blank, then the stripped text, then blank again, and the stripped
    text neither starts nor ends with whitespace.  It is empty exactly when
    the whole text is blank, which is the test the coordinator's scan makes
    on a message content. *)
Theorem strip_removes_both_ends (s : string) :
  (exists l r,
      s = (l ++ strip s ++ r)%string
      /\ is_blank l = true /\ is_blank r = true)
  /\ head_is_space (strip s) = false
  /\ last_is_space (strip s) = false
  /\ (strip s = "" <-> is_blank s = true).
Proof.
  unfold strip.
  destruct (lstrip_split s) as (l & Hs & Hl & Hh).
  destruct (rstrip_split (lstrip s)) as (r & Hm & Hr & Hlast & Hhead).
  assert (exists l r, s = (l ++ rstrip (lstrip s) ++ r)%string
                      /\ is_blank l = true /\ is_blank r = true) as Hsplit.
  { exists l, r. repeat split; [|exact Hl|exact Hr]. now rewrite <- Hm. }
  split; [exact Hsplit|]. split; [now apply Hhead|]. split; [exact Hlast|].
  split.
  - intros Hempty. rewrite Hempty in Hm. change (lstrip s = r) in Hm.
    rewrite Hs, Hm, is_blank_app, Hl, Hr. reflexivity.
  - intros Hb. now rewrite (lstrip_blank s Hb).
Qed.

Section PromptFacts.

Variable PROMPT_DIR : string.
Variable open_file : string -> open_result.



End PromptFacts.


(** ** The client cache *)

Section CacheFacts.

Variable get_shared_mcp_client : result shared_client.
Variable shared_get_tools : shared_client -> result (list tool).
Variable new_lightweight_client : result mcp_client.
Variable lightweight_get_tools : mcp_client -> result (list tool).

#[local] Abbreviation bootstrap :=
  (get_persistent_mcp_client get_shared_mcp_client shared_get_tools
     new_lightweight_client lightweight_get_tools).
#[local] Abbreviation primary :=
  (primary_provider get_shared_mcp_client shared_get_tools).
#[local] Abbreviation fallback :=
  (fallback_provider new_lightweight_client lightweight_get_tools).

(** The two cached globals after the bootstrap of an uninitialised
    module. *)
Lemma bootstrap_globals (g : globals) :
  _persistent_mcp_client g = None ->
  _persistent_mcp_client (snd (bootstrap g)) =
    match primary, get_shared_mcp_client, new_lightweight_client with
    | Ok _, Ok sc, _ => Some (SharedMCPClientWrapper sc)
    | _, _, Ok cl => Some cl
    | _, _, Raise _ => None
    end
  /\ _mcp_tools_cache (snd (bootstrap g)) =
       match primary, fallback with
       | Ok tools, _ => Some tools
       | Raise _, Ok tools => Some tools
       | Raise _, Raise _ => _mcp_tools_cache g
       end.
Proof.
  intros Hnone.
  unfold get_persistent_mcp_client, primary_provider, fallback_provider,
    init_shared, init_lightweight,
    bind, try_except, gets, modify, attempt, raise, except_Exception, ret.
  rewrite Hnone.
  destruct get_shared_mcp_client as [sc|e1]; cbn [rbind];
    [destruct (shared_get_tools sc) as [tools|e2]|];
    try (destruct new_lightweight_client as [cl|e3]; cbn [rbind];
         [destruct (lightweight_get_tools cl) as [tools'|e4]|]);
    cbn [fst snd log_attempt set_shared_mcp_client set_mcp_tools_cache
           set_persistent_mcp_client _persistent_mcp_client _mcp_tools_cache];
    rewrite ?Hnone; split; reflexivity.
Qed.

(** With a client in place the function makes no attempt. *)
Lemma bootstrap_cached (g : globals) (c : mcp_client) :
  _persistent_mcp_client g = Some c ->
  bootstrap g = (Ok (Some c, _mcp_tools_cache g), g).
Proof.
  intros Hc. unfold get_persistent_mcp_client, bind, gets, ret.
  rewrite Hc. cbn [fst snd]. now rewrite Hc.
Qed.

End CacheFacts.

(** X9: once a bootstrap has returned, every later call returns the same
    client and tools without asking any provider again, whatever the
    providers would answer by then. *)
Theorem bootstrap_runs_once
    (get_shared_mcp_client get_shared_later : result shared_client)
    (shared_get_tools shared_tools_later : shared_client -> result (list tool))
    (new_lightweight_client new_lightweight_later : result mcp_client)
    (lightweight_get_tools lightweight_tools_later : mcp_client -> result (list tool))
    (g : globals) (r : option mcp_client * option (list tool)) :
  _persistent_mcp_client g = None ->
  let first := get_persistent_mcp_client get_shared_mcp_client shared_get_tools
                 new_lightweight_client lightweight_get_tools g in
  fst first = Ok r ->
  get_persistent_mcp_client get_shared_later shared_tools_later
    new_lightweight_later lightweight_tools_later (snd first)
  = (Ok r, snd first).
Proof.
  intros Hnone first Hr.
  destruct (bootstrap_run get_shared_mcp_client shared_get_tools
              new_lightweight_client lightweight_get_tools g Hnone) as [_ Hres].
  destruct (bootstrap_globals get_shared_mcp_client shared_get_tools
              new_lightweight_client lightweight_get_tools g Hnone) as [Hc Ht].
  fold first in Hres, Hc, Ht. clearbody first.
  assert (exists c, _persistent_mcp_client (snd first) = Some c
                    /\ r = (Some c, _mcp_tools_cache (snd first)))
    as (c & Hcached & ->).
  { destruct (primary_provider _ _) as [t1|e1];
      [|destruct (fallback_provider _ _) as [t2|e2]].
    - destruct Hres as (sc & Hsc & Hfst). rewrite Hsc in Hc.
      exists (SharedMCPClientWrapper sc). split; [exact Hc|]. congruence.
    - destruct Hres as (cl & Hcl & Hfst). rewrite Hcl in Hc.
      exists cl. split; [now destruct get_shared_mcp_client|]. congruence.
    - congruence. }
  apply bootstrap_cached. exact Hcached.
Qed.

Lemma bootstrap_runs_once_witness :
  let tools := [{| tool_is_dict := false; tool_name := Some "bank_balance" |}] in
  let down : result shared_client := Raise (Exception "connection refused") in
  let first := get_persistent_mcp_client (Ok 7%nat) (fun _ => Ok tools)
                 (Raise (Exception "no server")) (fun _ => Ok []) initial_globals in
  _persistent_mcp_client initial_globals = None
  /\ fst first = Ok (Some (SharedMCPClientWrapper 7), Some tools)
  /\ get_persistent_mcp_client down (fun _ => Ok []) (Raise (Exception "no server"))
       (fun _ => Ok []) (snd first)
     = (Ok (Some (SharedMCPClientWrapper 7), Some tools), snd first).
Proof.
  intros tools down first.
  assert (_persistent_mcp_client initial_globals = None) as Hnone by reflexivity.
  assert (fst first = Ok (Some (SharedMCPClientWrapper 7), Some tools)) as Hfirst
    by reflexivity.
  split; [exact Hnone|]. split; [exact Hfirst|].
  exact (bootstrap_runs_once (Ok 7%nat) down (fun _ => Ok tools) (fun _ => Ok [])
           (Raise (Exception "no server")) (Raise (Exception "no server"))
           (fun _ => Ok []) (fun _ => Ok []) initial_globals _ Hnone Hfirst).
Defined.

(** X10: a bootstrap that fails after the lightweight client was built
    leaves that client in the module global.  The first call raises the
    both-failed error; the next call asks no provider, does not raise, and
    returns the client with the tools cache as it was before, [None] for a
    fresh module. *)
Theorem failed_bootstrap_is_not_retried
    (get_shared_mcp_client get_shared_later : result shared_client)
    (shared_get_tools shared_tools_later : shared_client -> result (list tool))
    (new_lightweight_later : result mcp_client)
    (lightweight_get_tools lightweight_tools_later : mcp_client -> result (list tool))
    (g : globals) (cl : mcp_client) :
  _persistent_mcp_client g = None ->
  is_ok (primary_provider get_shared_mcp_client shared_get_tools) = false ->
  is_ok (lightweight_get_tools cl) = false ->
  let first := get_persistent_mcp_client get_shared_mcp_client shared_get_tools
                 (Ok cl) lightweight_get_tools g in
  fst first = Raise both_failed
  /\ get_persistent_mcp_client get_shared_later shared_tools_later
       new_lightweight_later lightweight_tools_later (snd first)
     = (Ok (Some cl, _mcp_tools_cache g), snd first).
Proof.
  intros Hnone Hp Hf first.
  destruct (bootstrap_run get_shared_mcp_client shared_get_tools
              (Ok cl) lightweight_get_tools g Hnone) as [_ Hres].
  destruct (bootstrap_globals get_shared_mcp_client shared_get_tools
              (Ok cl) lightweight_get_tools g Hnone) as [Hc Ht].
  fold first in Hres, Hc, Ht. clearbody first.
  unfold fallback_provider in Hres, Ht. cbn [rbind] in Hres, Ht.
  destruct (primary_provider _ _) as [t1|e1]; [discriminate|].
  destruct (lightweight_get_tools cl) as [t2|e2]; [discriminate|].
  split; [exact Hres|].
  assert (_persistent_mcp_client (snd first) = Some cl) as Hc'
    by (rewrite Hc; now destruct get_shared_mcp_client).
  rewrite <- Ht. apply bootstrap_cached. exact Hc'.
Qed.

Lemma failed_bootstrap_is_not_retried_witness :
  let down : result shared_client := Raise (Exception "connection refused") in
  let no_tools : mcp_client -> result (list tool) :=
    fun _ => Raise (Exception "no server") in
  let cl := MultiServerMCPClient "python3"
              ["-m"; "src.app.tools.lightweight_mcp_server"] "stdio" in
  let first := get_persistent_mcp_client down (fun _ => Ok []) (Ok cl) no_tools
                 initial_globals in
  fst first = Raise both_failed
  /\ fst (get_persistent_mcp_client down (fun _ => Ok []) (Ok cl) no_tools (snd first))
     = Ok (Some cl, None).
Proof.
  intros down no_tools cl first.
  destruct (failed_bootstrap_is_not_retried down down (fun _ => Ok []) (fun _ => Ok [])
              (Ok cl) no_tools no_tools initial_globals cl
              eq_refl eq_refl eq_refl) as [H1 H2].
  split; [exact H1|]. fold first in H2. now rewrite H2.
Defined.

(** ** Building the agents *)

Section SetupFacts.

Variable get_shared_mcp_client : result shared_client.
Variable shared_get_tools : shared_client -> result (list tool).
Variable new_lightweight_client : result mcp_client.
Variable lightweight_get_tools : mcp_client -> result (list tool).
Variable PROMPT_DIR : string.
Variable open_file : string -> open_result.

#[local] Abbreviation bootstrap :=
  (get_persistent_mcp_client get_shared_mcp_client shared_get_tools
     new_lightweight_client lightweight_get_tools).
#[local] Abbreviation setup :=
  (setup_agents get_shared_mcp_client shared_get_tools
     new_lightweight_client lightweight_get_tools PROMPT_DIR open_file).
#[local] Abbreviation prompt_of := (load_prompt PROMPT_DIR open_file).

(** The four agents are built from the tools the bootstrap returned. *)
Lemma setup_agents_builds (g g' : globals) (c : option mcp_client)
      (tools : list tool) :
  bootstrap g = (Ok (c, Some tools), g') ->
  (forall a, exists p, prompt_of (agent_name a) = Ok p) ->
  exists built,
    setup g = (Ok built, g')
    /\ forall a, react_tools (built a) = agent_tools a tools
                 /\ prompt_of (agent_name a) = Ok (state_modifier (built a)).
Proof.
  intros Hb Hprompts.
  destruct (Hprompts coordinator_agent) as [p1 H1].
  destruct (Hprompts customer_support_agent) as [p2 H2].
  destruct (Hprompts sales_agent) as [p3 H3].
  destruct (Hprompts transactions_agent) as [p4 H4].
  cbn [agent_name] in H1, H2, H3, H4.
  unfold setup_agents, bind. rewrite Hb.
  unfold lift, create_react_agent, ret. cbn [snd filter_cached agent_name].
  rewrite H1, H2, H3, H4. cbn [rbind].
  eexists. split; [reflexivity|].
  intros []; cbn [agent_name react_tools state_modifier]; split;
    reflexivity || assumption.
Qed.

Lemma setup_agents_propagates (g g' : globals) (e : exn) :
  bootstrap g = (Raise e, g') -> setup g = (Raise e, g').
Proof. intros Hb. unfold setup_agents, bind. now rewrite Hb. Qed.

Lemma setup_agents_without_tools (g g' : globals) (c : option mcp_client) :
  bootstrap g = (Ok (c, None), g') -> setup g = (Raise TypeError, g').
Proof. intros Hb. unfold setup_agents, bind. now rewrite Hb. Qed.

Lemma prompt_found_or_default (name : string) :
  (forall e, open_file (prompt_path PROMPT_DIR name) <> OpenFailed e) ->
  exists p, prompt_of name = Ok p.
Proof.
  intros H. unfold load_prompt.
  destruct (open_file (prompt_path PROMPT_DIR name)) as [text| |e]; eauto.
  now destruct (H e).
Qed.

End SetupFacts.

(** X11: when no prompt file is unreadable (each is there or missing),
    [setup_agents] on a module without a client fails only if both
    capability providers fail, with the both-failed error.  Otherwise it
    builds the four agents, each with the tools of the provider that
    answered filtered by the agent's prefixes and with its loaded prompt; a
    missing prompt file is no failure. *)
Theorem setup_agents_outcome
    (get_shared_mcp_client : result shared_client)
    (shared_get_tools : shared_client -> result (list tool))
    (new_lightweight_client : result mcp_client)
    (lightweight_get_tools : mcp_client -> result (list tool))
    (PROMPT_DIR : string) (open_file : string -> open_result) (g : globals) :
  _persistent_mcp_client g = None ->
  (forall a e, open_file (prompt_path PROMPT_DIR (agent_name a)) <> OpenFailed e) ->
  let run := setup_agents get_shared_mcp_client shared_get_tools
               new_lightweight_client lightweight_get_tools PROMPT_DIR open_file g in
  let built_from tools :=
    exists built,
      fst run = Ok built
      /\ forall a, react_tools (built a) = agent_tools a tools
                   /\ load_prompt PROMPT_DIR open_file (agent_name a)
                      = Ok (state_modifier (built a)) in
  match primary_provider get_shared_mcp_client shared_get_tools,
        fallback_provider new_lightweight_client lightweight_get_tools with
  | Ok tools, _ => built_from tools
  | Raise _, Ok tools => built_from tools
  | Raise _, Raise _ => fst run = Raise both_failed
  end.
Proof.
  intros Hnone Hfiles run built_from. subst run built_from.
  assert (forall a, exists p,
             load_prompt PROMPT_DIR open_file (agent_name a) = Ok p) as Hprompts.
  { intros a. apply prompt_found_or_default. intros e. apply Hfiles. }
  destruct (bootstrap_run get_shared_mcp_client shared_get_tools
              new_lightweight_client lightweight_get_tools g Hnone) as [_ Hres].
  destruct (get_persistent_mcp_client get_shared_mcp_client shared_get_tools
              new_lightweight_client lightweight_get_tools g) as [r g'] eqn:Hb.
  cbn [fst] in Hres.
  destruct (primary_provider _ _) as [t1|e1];
    [|destruct (fallback_provider _ _) as [t2|e2]].
  - destruct Hres as (sc & _ & ->).
    destruct (setup_agents_builds _ _ _ _ PROMPT_DIR open_file _ _ _ _ Hb Hprompts)
      as (built & Hrun & Hbuilt).
    exists built. now rewrite Hrun.
  - destruct Hres as (cl & _ & ->).
    destruct (setup_agents_builds _ _ _ _ PROMPT_DIR open_file _ _ _ _ Hb Hprompts)
      as (built & Hrun & Hbuilt).
    exists built. now rewrite Hrun.
  - subst r.
    now rewrite (setup_agents_propagates _ _ _ _ PROMPT_DIR open_file _ _ _ Hb).
Qed.

Lemma setup_agents_outcome_witness :
  let balance := {| tool_is_dict := false; tool_name := Some "bank_balance" |} in
  let to_sales := {| tool_is_dict := false; tool_name := Some "transfer_to_sales_agent" |} in
  let no_files : string -> open_result := fun _ => FileNotFound in
  let run := setup_agents (Ok 7%nat) (fun _ => Ok [balance; to_sales])
               (Raise (Exception "no server")) (fun _ => Ok [])
               "/srv/app/prompts" no_files initial_globals in
  exists built,
    fst run = Ok built
    /\ react_tools (built transactions_agent) = [balance]
    /\ react_tools (built coordinator_agent) = [to_sales]
    /\ state_modifier (built sales_agent) = default_prompt.
Proof.
  intros balance to_sales no_files run.
  assert (forall a e, no_files (prompt_path "/srv/app/prompts" (agent_name a))
                      <> OpenFailed e) as Hfiles by (intros a e; discriminate).
  destruct (setup_agents_outcome (Ok 7%nat) (fun _ => Ok [balance; to_sales])
              (Raise (Exception "no server")) (fun _ => Ok [])
              "/srv/app/prompts" no_files initial_globals eq_refl Hfiles)
    as (built & Hrun & Hbuilt).
  exists built. split; [exact Hrun|].
  split; [exact (proj1 (Hbuilt transactions_agent))|].
  split; [exact (proj1 (Hbuilt coordinator_agent))|].
  pose proof (proj2 (Hbuilt sales_agent)) as Hp.
  assert (load_prompt "/srv/app/prompts" no_files (agent_name sales_agent)
          = Ok default_prompt) as Hdefault by reflexivity.
  rewrite Hdefault in Hp. now injection Hp as <-.
Defined.

(** X12: after a bootstrap that failed with the lightweight client
    already built, a fresh module keeps that client and no tools, so a
    second [setup_agents] does not report the failed providers again: it
    raises the [TypeError] of iterating over [None]. *)
Theorem setup_agents_after_failed_bootstrap
    (get_shared_mcp_client : result shared_client)
    (shared_get_tools : shared_client -> result (list tool))
    (lightweight_get_tools : mcp_client -> result (list tool))
    (PROMPT_DIR : string) (open_file : string -> open_result)
    (g : globals) (cl : mcp_client) :
  _persistent_mcp_client g = None ->
  _mcp_tools_cache g = None ->
  is_ok (primary_provider get_shared_mcp_client shared_get_tools) = false ->
  is_ok (lightweight_get_tools cl) = false ->
  let setup := setup_agents get_shared_mcp_client shared_get_tools (Ok cl)
                 lightweight_get_tools PROMPT_DIR open_file in
  fst (setup g) = Raise both_failed
  /\ fst (setup (snd (setup g))) = Raise TypeError.
Proof.
  intros Hnone Hcache Hp Hf setup. subst setup.
  destruct (failed_bootstrap_is_not_retried get_shared_mcp_client
              get_shared_mcp_client shared_get_tools shared_get_tools (Ok cl)
              lightweight_get_tools lightweight_get_tools g cl Hnone Hp Hf)
    as [Hfirst Hsecond].
  cbv zeta in Hfirst, Hsecond. rewrite Hcache in Hsecond.
  destruct (get_persistent_mcp_client get_shared_mcp_client shared_get_tools
              (Ok cl) lightweight_get_tools g) as [r g'] eqn:Hb.
  cbn [fst snd] in Hfirst, Hsecond. subst r.
  rewrite (setup_agents_propagates _ _ _ _ PROMPT_DIR open_file _ _ _ Hb).
  cbn [fst snd]. split; [reflexivity|].
  now rewrite (setup_agents_without_tools _ _ _ _ PROMPT_DIR open_file _ _ _ Hsecond).
Qed.

Lemma setup_agents_after_failed_bootstrap_witness :
  let down : result shared_client := Raise (Exception "connection refused") in
  let no_tools : mcp_client -> result (list tool) :=
    fun _ => Raise (Exception "no server") in
  let cl := MultiServerMCPClient "python3"
              ["-m"; "src.app.tools.lightweight_mcp_server"] "stdio" in
  let setup := setup_agents down (fun _ => Ok []) (Ok cl) no_tools
                 "/srv/app/prompts" (fun _ => FileNotFound) in
  fst (setup initial_globals) = Raise both_failed
  /\ fst (setup (snd (setup initial_globals))) = Raise TypeError.
Proof.
  intros down no_tools cl setup.
  exact (setup_agents_after_failed_bootstrap down (fun _ => Ok []) no_tools
           "/srv/app/prompts" (fun _ => FileNotFound) initial_globals cl
           eq_refl eq_refl eq_refl eq_refl).
Defined.

(** ** Shutting the clients down *)

Section ShutdownFacts.

Variable shared_cleanup : shared_client -> list shutdown_event -> result unit.
Variable has_close : bool.
Variable multiserver_close : list shutdown_event -> result unit.

#[local] Abbreviation cleanup :=
  (cleanup_persistent_mcp_client shared_cleanup has_close multiserver_close).

(** Everything the shutdown does, by cases on the two globals. *)
Lemma cleanup_effect (s : shutdown_state) :
  let g := sd_globals s in
  let g' := sd_globals (snd (cleanup s)) in
  fst (cleanup s) = Ok tt
  /\ _persistent_mcp_client g' = None
  /\ _mcp_tools_cache g' = _mcp_tools_cache g
  /\ attempts g' = attempts g
  /\ _shared_mcp_client g' =
       match _shared_mcp_client g with
       | Some sc => if is_ok (shared_cleanup sc (sd_calls s)) then None else Some sc
       | None => None
       end
  /\ sd_calls (snd (cleanup s)) =
       sd_calls s ++ shared_calls (_shared_mcp_client g)
         ++ close_calls has_close (_persistent_mcp_client g).
Proof.
  destruct s as [[client cache shared att] calls].
  unfold cleanup_persistent_mcp_client, close_client, call_shared_cleanup,
    bind, try_except, gets, modify, except_Exception, ret.
  cbn [sd_globals sd_calls _shared_mcp_client _persistent_mcp_client].
  destruct shared as [sc|];
    (destruct client as [[sc'|command args transport]|]; [|destruct has_close|]);
    repeat (cbn [fst snd sd_globals sd_calls log_call on_globals is_ok
                   shared_calls close_calls
                   set_shared_mcp_client set_persistent_mcp_client
                   _shared_mcp_client _persistent_mcp_client _mcp_tools_cache
                   attempts];
            match goal with
            | |- context [shared_cleanup ?a ?b] =>
                destruct (shared_cleanup a b) as [[]|?]
            | |- context [multiserver_close ?b] =>
                destruct (multiserver_close b) as [[]|?]
            end);
    cbn [fst snd sd_globals sd_calls log_call on_globals is_ok
           shared_calls close_calls
           set_shared_mcp_client set_persistent_mcp_client
           _shared_mcp_client _persistent_mcp_client _mcp_tools_cache attempts];
    rewrite <- ?app_assoc, ?app_nil_r; repeat split; reflexivity.
Qed.

End ShutdownFacts.


(** X14: the shared client is forgotten only when its cleanup returned.
    When that cleanup raises, the global keeps the client, and a second
    shutdown calls its cleanup again. *)
Theorem failed_shared_cleanup_keeps_client
    (shared_cleanup : shared_client -> list shutdown_event -> result unit)
    (has_close : bool)
    (multiserver_close : list shutdown_event -> result unit)
    (s : shutdown_state) (sc : shared_client) :
  _shared_mcp_client (sd_globals s) = Some sc ->
  let cleanup := cleanup_persistent_mcp_client shared_cleanup has_close
                   multiserver_close in
  let s' := snd (cleanup s) in
  (is_ok (shared_cleanup sc (sd_calls s)) = true ->
   _shared_mcp_client (sd_globals s') = None)
  /\ (is_ok (shared_cleanup sc (sd_calls s)) = false ->
      _shared_mcp_client (sd_globals s') = Some sc
      /\ sd_calls (snd (cleanup s')) = sd_calls s' ++ [EvSharedCleanup sc]).
Proof.
  intros Hsc cleanup s'. subst cleanup s'.
  destruct (cleanup_effect shared_cleanup has_close multiserver_close s)
    as (_ & Hclient & _ & _ & Hshared & _).
  cbv zeta in Hclient, Hshared. rewrite Hsc in Hshared.
  split; intros Hok; rewrite Hok in Hshared; [exact Hshared|].
  split; [exact Hshared|].
  destruct (cleanup_effect shared_cleanup has_close multiserver_close
              (snd (cleanup_persistent_mcp_client shared_cleanup has_close
                      multiserver_close s)))
    as (_ & _ & _ & _ & _ & Hcalls).
  cbv zeta in Hcalls. rewrite Hcalls, Hshared, Hclient. reflexivity.
Qed.

Lemma failed_shared_cleanup_keeps_client_witness :
  let busy : shared_client -> list shutdown_event -> result unit :=
    fun _ _ => Raise (Exception "session busy") in
  let s := {| sd_globals := set_shared_mcp_client (Some 7%nat) initial_globals;
              sd_calls := [] |} in
  let cleanup := cleanup_persistent_mcp_client busy true (fun _ => Ok tt) in
  _shared_mcp_client (sd_globals s) = Some 7%nat
  /\ is_ok (busy 7%nat (sd_calls s)) = false
  /\ _shared_mcp_client (sd_globals (snd (cleanup s))) = Some 7%nat
  /\ sd_calls (snd (cleanup (snd (cleanup s))))
     = [EvSharedCleanup 7; EvSharedCleanup 7].
Proof.
  intros busy s cleanup.
  assert (_shared_mcp_client (sd_globals s) = Some 7%nat) as Hsc by reflexivity.
  assert (is_ok (busy 7%nat (sd_calls s)) = false) as Hfail by reflexivity.
  destruct (proj2 (failed_shared_cleanup_keeps_client busy true (fun _ => Ok tt)
                     s 7%nat Hsc) Hfail) as [Hkept Hagain].
  split; [exact Hsc|]. split; [exact Hfail|]. split; [exact Hkept|].
  subst cleanup. rewrite Hagain. reflexivity.
Defined.

(** X15: when the persistent client is the wrapper of the shared client,
    one shutdown calls that client's cleanup twice: once directly and once
    more through the wrapper's [close], whatever the first call did. *)
Theorem shutdown_cleans_shared_client_twice
    (shared_cleanup : shared_client -> list shutdown_event -> result unit)
    (has_close : bool)
    (multiserver_close : list shutdown_event -> result unit)
    (s : shutdown_state) (sc : shared_client) :
  _shared_mcp_client (sd_globals s) = Some sc ->
  _persistent_mcp_client (sd_globals s) = Some (SharedMCPClientWrapper sc) ->
  sd_calls (snd (cleanup_persistent_mcp_client shared_cleanup has_close
                   multiserver_close s))
  = sd_calls s ++ [EvSharedCleanup sc; EvSharedCleanup sc].
Proof.
  intros Hsc Hc.
  destruct (cleanup_effect shared_cleanup has_close multiserver_close s)
    as (_ & _ & _ & _ & _ & Hcalls).
  cbv zeta in Hcalls. now rewrite Hcalls, Hsc, Hc.
Qed.

Lemma shutdown_cleans_shared_client_twice_witness :
  let tools := [{| tool_is_dict := false; tool_name := Some "bank_balance" |}] in
  let booted := snd (get_persistent_mcp_client (Ok 7%nat) (fun _ => Ok tools)
                       (Raise (Exception "unused")) (fun _ => Ok [])
                       initial_globals) in
  let s := {| sd_globals := booted; sd_calls := [] |} in
  _shared_mcp_client booted = Some 7%nat
  /\ _persistent_mcp_client booted = Some (SharedMCPClientWrapper 7)
  /\ sd_calls (snd (cleanup_persistent_mcp_client (fun _ _ => Ok tt) true
                      (fun _ => Ok tt) s))
     = [EvSharedCleanup 7; EvSharedCleanup 7].
Proof.
  intros tools booted s.
  assert (_shared_mcp_client (sd_globals s) = Some 7%nat) as Hsc by reflexivity.
  assert (_persistent_mcp_client (sd_globals s) = Some (SharedMCPClientWrapper 7))
    as Hc by reflexivity.
  split; [exact Hsc|]. split; [exact Hc|].
  exact (shutdown_cleans_shared_client_twice (fun _ _ => Ok tt) true
           (fun _ => Ok tt) s 7%nat Hsc Hc).
Defined.

(** X16: after a shutdown the next [get_persistent_mcp_client] bootstraps
    again: it attempts the primary provider first and the fallback exactly
    when the primary one fails, as on a fresh module. *)
Theorem bootstrap_after_shutdown
    (shared_cleanup : shared_client -> list shutdown_event -> result unit)
    (has_close : bool)
    (multiserver_close : list shutdown_event -> result unit)
    (get_shared_mcp_client : result shared_client)
    (shared_get_tools : shared_client -> result (list tool))
    (new_lightweight_client : result mcp_client)
    (lightweight_get_tools : mcp_client -> result (list tool))
    (s : shutdown_state) :
  let stopped := sd_globals (snd (cleanup_persistent_mcp_client shared_cleanup
                                    has_close multiserver_close s)) in
  let run := get_persistent_mcp_client get_shared_mcp_client shared_get_tools
               new_lightweight_client lightweight_get_tools stopped in
  let primary := primary_provider get_shared_mcp_client shared_get_tools in
  attempts (snd run) =
    attempts (sd_globals s) ++ primary_attempts get_shared_mcp_client
      ++ (if is_ok primary then [] else fallback_attempts new_lightweight_client)
  /\ (forall tools,
        primary = Ok tools ->
        exists sc, fst run = Ok (Some (SharedMCPClientWrapper sc), Some tools)).
Proof.
  intros stopped run primary. subst stopped run primary.
  destruct (cleanup_effect shared_cleanup has_close multiserver_close s)
    as (_ & Hnone & _ & Hatt & _).
  cbv zeta in Hnone, Hatt.
  destruct (bootstrap_run get_shared_mcp_client shared_get_tools
              new_lightweight_client lightweight_get_tools _ Hnone) as [Hrun Hres].
  split; [now rewrite Hrun, Hatt|].
  intros tools Hok. rewrite Hok in Hres.
  destruct Hres as (sc & _ & Hfst). now exists sc.
Qed.

Lemma bootstrap_after_shutdown_witness :
  let tools := [{| tool_is_dict := false; tool_name := Some "bank_balance" |}] in
  let shared : result shared_client := Ok 7%nat in
  let booted := snd (get_persistent_mcp_client shared (fun _ => Ok tools)
                       (Raise (Exception "unused")) (fun _ => Ok [])
                       initial_globals) in
  let stopped := sd_globals (snd (cleanup_persistent_mcp_client (fun _ _ => Ok tt)
                                    true (fun _ => Ok tt)
                                    {| sd_globals := booted; sd_calls := [] |})) in
  let run := get_persistent_mcp_client shared (fun _ => Ok tools)
               (Raise (Exception "unused")) (fun _ => Ok []) stopped in
  primary_provider shared (fun _ => Ok tools) = Ok tools
  /\ attempts (snd run)
     = [EvGetSharedClient; EvSharedGetTools; EvGetSharedClient; EvSharedGetTools]
  /\ exists sc, fst run = Ok (Some (SharedMCPClientWrapper sc), Some tools).
Proof.
  intros tools shared booted stopped run.
  assert (primary_provider shared (fun _ => Ok tools) = Ok tools) as Hok
    by reflexivity.
  destruct (bootstrap_after_shutdown (fun _ _ => Ok tt) true (fun _ => Ok tt)
              shared (fun _ => Ok tools) (Raise (Exception "unused"))
              (fun _ => Ok []) {| sd_globals := booted; sd_calls := [] |})
    as [Hatt Hres].
  split; [exact Hok|]. split; [exact Hatt|]. exact (Hres tools Hok).
Defined.

(** ** What the nodes raise and what they leave alone *)

Section NodeFacts.

Variable json_loads : string -> option pyval.
Variable ainvoke : agent -> list entry -> option config -> result response.

#[local] Abbreviation run_node := (node json_loads ainvoke).


End NodeFacts.



Lemma after_resolution_frame (w : world) (cfg : config) :
  heap (after_resolution w cfg) = heap w
  /\ local_interactive_mode (after_resolution w cfg) = local_interactive_mode w
  /\ (local_interactive_mode w = false ->
      chat_container (after_resolution w cfg) = chat_container w).
Proof.
  unfold after_resolution.
  destruct (py_eq_literal _ _); destruct (local_interactive_mode w) eqn:Hm;
    cbn [andb heap local_interactive_mode chat_container log_event set_chat_container];
    repeat split; try reflexivity; try assumption; discriminate.
Qed.

Lemma before_invoke_frame (a : agent) (state : loc) (cfg : config) (w : world) :
  local_interactive_mode (before_invoke a state cfg w) = local_interactive_mode w
  /\ heap (before_invoke a state cfg w) =
       match a with
       | transactions_agent =>
           <[state := invoke_messages a cfg (state_messages w state)]> (heap w)
       | _ => heap w
       end.
Proof.
  unfold before_invoke, after_patch.
  destruct a, (local_interactive_mode w) eqn:Hm;
    cbn [heap local_interactive_mode log_event set_chat_container set_heap];
    split; reflexivity || assumption.
Qed.

Lemma coordinator_world
    (json_loads : string -> option pyval)
    (ainvoke : agent -> list entry -> option config -> result response)
    (state : loc) (cfg : config) (w : world) :
  let w' := snd (call_coordinator_agent json_loads ainvoke state cfg w) in
  heap w' = heap w
  /\ local_interactive_mode w' = local_interactive_mode w
  /\ chat_container w' = chat_container (after_resolution w cfg).
Proof.
  rewrite call_coordinator_agent_run. cbv zeta.
  destruct (after_resolution_frame w cfg) as (Hh & Hm & _).
  destruct (negb _); [now repeat split|].
  destruct (ainvoke _ _ _) as [r|e];
    [destruct (coordinator_transfer_target json_loads r)|];
    cbn [snd heap local_interactive_mode chat_container log_event];
    now repeat split.
Qed.

(** X18: outside local interactive mode no node writes the session
    store: the coordinator and the three specialists leave the chat
    container exactly as it was, whether the agent returns or raises.  In
    either mode [get_active_agent] leaves it as it was, and no node changes
    the mode. *)
Theorem session_store_untouched_outside_local_mode
    (json_loads : string -> option pyval)
    (ainvoke : agent -> list entry -> option config -> result response)
    (a : agent) (state : loc) (cfg : config) (w : world) :
  let w' := snd (node json_loads ainvoke a state cfg w) in
  (local_interactive_mode w = false -> chat_container w' = chat_container w)
  /\ local_interactive_mode w' = local_interactive_mode w
  /\ chat_container (snd (get_active_agent json_loads state cfg w))
     = chat_container w.
Proof.
  intros w'. subst w'. split; [|split].
  - intros Hm. destruct (agent_eq_dec a coordinator_agent) as [->|Ha].
    + cbn [node].
      destruct (coordinator_world json_loads ainvoke state cfg w) as (_ & _ & ->).
      now apply after_resolution_frame.
    + rewrite (specialist_world json_loads ainvoke a state cfg w Ha).
      cbn [chat_container log_event]. rewrite chat_container_before_invoke.
      now rewrite Hm.
  - destruct (agent_eq_dec a coordinator_agent) as [->|Ha].
    + cbn [node]. apply coordinator_world.
    + rewrite (specialist_world json_loads ainvoke a state cfg w Ha).
      cbn [local_interactive_mode log_event]. apply before_invoke_frame.
  - rewrite get_active_agent_run. cbv zeta. now destruct (truthy _).
Qed.

Lemma session_store_untouched_outside_local_mode_witness :
  let w := sample_world_with (Some (PStr "transactions_agent")) false in
  local_interactive_mode w = false
  /\ chat_container (snd (node sample_json_loads sample_ainvoke transactions_agent
                            0 sample_config w))
     = chat_container w.
Proof.
  intros w.
  assert (local_interactive_mode w = false) as Hm by reflexivity.
  split; [exact Hm|].
  exact (proj1 (session_store_untouched_outside_local_mode sample_json_loads
                  sample_ainvoke transactions_agent 0 sample_config w) Hm).
Defined.

(** X19: only the transactions node changes a state object, and only the
    one it was given: every other node leaves all message lists as they
    were, and the transactions node leaves the lists at other addresses as
    they were. *)
Theorem only_transactions_changes_state
    (json_loads : string -> option pyval)
    (ainvoke : agent -> list entry -> option config -> result response)
    (a : agent) (state other : loc) (cfg : config) (w : world) :
  let w' := snd (node json_loads ainvoke a state cfg w) in
  (a <> transactions_agent -> heap w' = heap w)
  /\ (other <> state -> state_messages w' other = state_messages w other).
Proof.
  intros w'. subst w'.
  assert (heap (snd (node json_loads ainvoke a state cfg w)) =
            match a with
            | transactions_agent =>
                <[state := invoke_messages a cfg (state_messages w state)]> (heap w)
            | _ => heap w
            end) as Hheap.
  { destruct (agent_eq_dec a coordinator_agent) as [->|Ha].
    - cbn [node]. apply coordinator_world.
    - rewrite (specialist_world json_loads ainvoke a state cfg w Ha).
      cbn [heap log_event]. apply before_invoke_frame. }
  split.
  - intros Ha. rewrite Hheap. now destruct a.
  - intros Hother. unfold state_messages. rewrite Hheap.
    destruct a; try reflexivity. now rewrite lookup_insert_ne.
Qed.

Lemma only_transactions_changes_state_witness :
  let w := sample_world false in
  sales_agent <> transactions_agent
  /\ heap (snd (node sample_json_loads sample_ainvoke sales_agent 0 sample_config w))
     = heap w
  /\ (1 <> 0)%nat
  /\ state_messages (snd (node sample_json_loads sample_ainvoke transactions_agent
                            0 sample_config w)) 1
     = state_messages w 1.
Proof.
  intros w.
  assert (sales_agent <> transactions_agent) as Hne by discriminate.
  assert ((1 <> 0)%nat) as Hother by discriminate.
  split; [exact Hne|]. split.
  - exact (proj1 (only_transactions_changes_state sample_json_loads sample_ainvoke
                    sales_agent 0 0%nat sample_config w) Hne).
  - split; [exact Hother|].
    exact (proj2 (only_transactions_changes_state sample_json_loads sample_ainvoke
                    transactions_agent 0 1%nat sample_config w) Hother).
Defined.

(** X20: the context message is appended on every call and never
    removed, so a state object handed to the transactions node twice holds
    two context messages, and the second model call sees both. *)
Theorem transactions_context_accumulates
    (ainvoke : agent -> list entry -> option config -> result response)
    (state : loc) (cfg1 cfg2 : config) (w : world) :
  let ctx c := transfer_context (get_tenantId c) (get_userId c) (get_thread_id c) in
  let w1 := snd (call_transactions_agent ainvoke state cfg1 w) in
  let w2 := snd (call_transactions_agent ainvoke state cfg2 w1) in
  state_messages w2 state = state_messages w state ++ [ctx cfg1; ctx cfg2]
  /\ last (trace w2)
     = Some (EvInvoke transactions_agent
               (state_messages w state ++ [ctx cfg1; ctx cfg2]) (Some cfg2)).
Proof.
  intros ctx w1 w2.
  assert (transactions_agent <> coordinator_agent) as Hne by discriminate.
  assert (forall c v,
             state_messages (snd (call_transactions_agent ainvoke state c v)) state
             = state_messages v state ++ [ctx c]
             /\ last (trace (snd (call_transactions_agent ainvoke state c v)))
                = Some (EvInvoke transactions_agent
                          (state_messages v state ++ [ctx c]) (Some c))) as Hstep.
  { intros c v.
    pose proof (specialist_world (fun _ => None) ainvoke transactions_agent
                  state c v Hne) as Hw.
    cbn [node invoke_messages invoke_config] in Hw. rewrite Hw. split.
    - unfold before_invoke, state_messages.
      cbn [heap log_event set_heap invoke_messages].
      now rewrite lookup_insert_eq.
    - cbn [trace log_event]. apply last_snoc. }
  destruct (Hstep cfg1 w) as [H1 _]. destruct (Hstep cfg2 w1) as [H2 H3].
  fold w1 in H1. fold w2 in H2, H3.
  rewrite H1, <- app_assoc in H2. rewrite H1, <- app_assoc in H3.
  now split.
Qed.

(** ** More on the coordinator's scan *)

Section CoordinatorScanFacts.

Variable json_loads : string -> option pyval.

(** X21: the coordinator's loop breaks at the first message, in list
    order, that carries a directive: when no earlier message of the
    response has one, that message's target is the result and the later
    messages are not looked at. *)
Theorem coordinator_first_directive_wins
    (before after : list message) (m : message) (t : pyval) :
  Forall (fun x => coordinator_inspect json_loads x = Ok None) before ->
  coordinator_inspect json_loads m = Ok (Some t) ->
  coordinator_scan json_loads (before ++ m :: after) = Ok t
  /\ forall others,
       coordinator_transfer_target json_loads
         (RespDict (Some (before ++ m :: after)) others) = Ok t.
Proof.
  intros Hbefore Hm.
  assert (coordinator_scan json_loads (before ++ m :: after) = Ok t) as Hscan.
  { induction Hbefore as [|x rest Hx _ IH].
    - cbn [app]. now rewrite (coordinator_scan_cons json_loads m after _ Hm).
    - cbn [app]. now rewrite (coordinator_scan_cons json_loads x _ _ Hx). }
  split; [exact Hscan|]. intros others.
  destruct before; exact Hscan.
Qed.

(** A legacy marker is not blank. *)
Lemma legacy_marker_not_blank (t : string) :
  is_blank ("TRANSFER_REQUEST:" ++ t) = false.
Proof. reflexivity. Qed.

End CoordinatorScanFacts.

Lemma coordinator_first_directive_wins_witness :
  let greeting := {| msg_type := HumanMessage; content := CStr "hello" |} in
  let to_sales := tool_result (json_goto "sales_agent") in
  let to_support := tool_result (json_goto "customer_support_agent") in
  Forall (fun x => coordinator_inspect sample_json_loads x = Ok None) [greeting]
  /\ coordinator_inspect sample_json_loads to_sales = Ok (Some (PStr "sales_agent"))
  /\ coordinator_scan sample_json_loads ([greeting] ++ to_sales :: [to_support])
     = Ok (PStr "sales_agent").
Proof.
  intros greeting to_sales to_support.
  assert (Forall (fun x => coordinator_inspect sample_json_loads x = Ok None)
            [greeting]) as Hbefore by (repeat constructor).
  assert (coordinator_inspect sample_json_loads to_sales
          = Ok (Some (PStr "sales_agent"))) as Hm by (vm_compute; reflexivity).
  split; [exact Hbefore|]. split; [exact Hm|].
  exact (proj1 (coordinator_first_directive_wins sample_json_loads [greeting]
                  [to_support] to_sales (PStr "sales_agent") Hbefore Hm)).
Defined.

(** X22: a content that starts with "TRANSFER_REQUEST:" and is no JSON
    document names as target all the text after that first colon, as it
    stands.  With nothing after the colon the loop still breaks there, on
    the empty target, so the coordinator's command goes to the human node
    even when later messages of the response carry a directive. *)
Theorem legacy_directive_target
    (json_loads : string -> option pyval)
    (ainvoke : agent -> list entry -> option config -> result response)
    (state : loc) (cfg : config) (w : world)
    (m : message) (t : string) (rest : list message)
    (others : list (string * pyval)) :
  content m = CStr ("TRANSFER_REQUEST:" ++ t)%string ->
  json_loads ("TRANSFER_REQUEST:" ++ t)%string = None ->
  py_in (resolved_active_agent w cfg) coordinator_defaults = true ->
  ainvoke coordinator_agent (state_messages w state) None
  = Ok (RespDict (Some (m :: rest)) others) ->
  coordinator_scan json_loads (m :: rest) = Ok (PStr t)
  /\ fst (call_coordinator_agent json_loads ainvoke state cfg w)
     = Ok {| update := UpdateResponse (RespDict (Some (m :: rest)) others);
             goto := if String.eqb t "" then human else PStr t |}.
Proof.
  intros Hc Hjson Hin Hr.
  assert (coordinator_inspect json_loads m = Ok (Some (PStr t))) as Hm.
  { rewrite (coordinator_inspect_cases json_loads m _ Hc (legacy_marker_not_blank t)).
    unfold structured_goto, json_loads_content. rewrite Hjson. cbn [rbind].
    assert (startswith ("TRANSFER_REQUEST:" ++ t)%string "TRANSFER_REQUEST:" = true) as Hp
      by (apply startswith_app; now exists t).
    rewrite Hp. reflexivity. }
  assert (coordinator_scan json_loads (m :: rest) = Ok (PStr t)) as Hscan
    by now rewrite (coordinator_scan_cons json_loads m rest _ Hm).
  split; [exact Hscan|].
  destruct (coordinator_invokes json_loads ainvoke state cfg w Hin) as (_ & _ & H).
  cbv zeta in H. rewrite Hr in H. destruct H as (t' & Ht' & ->).
  cbn [coordinator_transfer_target] in Ht'. rewrite Hscan in Ht'.
  injection Ht' as <-. cbn [truthy]. now destruct (String.eqb t "").
Qed.

Lemma legacy_directive_target_witness :
  let marker := tool_result "TRANSFER_REQUEST:" in
  let to_sales := tool_result (json_goto "sales_agent") in
  let answers : agent -> list entry -> option config -> result response :=
    fun _ _ _ => Ok (RespDict (Some [marker; to_sales]) []) in
  let w := sample_world false in
  fst (call_coordinator_agent sample_json_loads answers 0 sample_config w)
  = Ok {| update := UpdateResponse (RespDict (Some [marker; to_sales]) []);
          goto := human |}.
Proof.
  intros marker to_sales answers w.
  assert (content marker = CStr ("TRANSFER_REQUEST:" ++ "")%string) as Hc by reflexivity.
  assert (sample_json_loads ("TRANSFER_REQUEST:" ++ "")%string = None) as Hj
    by (vm_compute; reflexivity).
  assert (py_in (resolved_active_agent w sample_config) coordinator_defaults = true)
    as Hin by (vm_compute; reflexivity).
  exact (proj2 (legacy_directive_target sample_json_loads answers 0 sample_config w
                  marker "" [to_sales] [] Hc Hj Hin eq_refl)).
Defined.

(** ** The conditional edges *)

(** X23: the mapping of the conditional edges sends an agent's name to
    that agent's node and has no entry for anything else.  The value
    [get_active_agent] falls back to when the state holds no directive and
    the thread has no stored active agent, "unknown", is not in it. *)
Theorem conditional_edges_cover_agents_only
    (json_loads : string -> option pyval)
    (state : loc) (cfg : config) (w : world) :
  (forall v n, path_map_lookup v = Some n ->
               v = PStr n /\ In n graph_nodes /\ exists a, n = agent_name a)
  /\ (forall a, path_map_lookup (PStr (agent_name a)) = Some (agent_name a))
  /\ (truthy (active_agent_scan json_loads (rev (state_messages w state)) PNone)
      = false ->
      persisted_active_agent w cfg = None ->
      fst (get_active_agent json_loads state cfg w) = Ok (PStr "unknown")
      /\ path_map_lookup (PStr "unknown") = None).
Proof.
  split; [|split].
  - intros v n H. destruct v; try discriminate. unfold path_map_lookup in H.
    cbn [path_map List.find fst] in H.
    repeat match type of H with
           | context [String.eqb ?x s] =>
               destruct (String.eqb_spec x s) as [<-|_];
               [cbn in H; injection H as <-;
                split; [reflexivity|];
                split; [cbn; tauto|];
                first [now exists sales_agent | now exists transactions_agent
                      | now exists customer_support_agent
                      | now exists coordinator_agent]|]
           end.
    discriminate.
  - now intros [].
  - intros Hscan Hp. split; [|reflexivity].
    rewrite get_active_agent_run. cbv zeta. rewrite Hscan. cbn [fst].
    unfold persisted_active_agent in Hp. unfold get_activeAgent.
    destruct (chat_container w !! config_key cfg) as [r|]; [|reflexivity].
    now rewrite Hp.
Qed.

Lemma conditional_edges_cover_agents_only_witness :
  let w := sample_world false in
  truthy (active_agent_scan sample_json_loads (rev (state_messages w 0)) PNone) = false
  /\ persisted_active_agent w sample_config = None
  /\ fst (get_active_agent sample_json_loads 0 sample_config w) = Ok (PStr "unknown")
  /\ path_map_lookup (PStr "unknown") = None.
Proof.
  intros w.
  assert (truthy (active_agent_scan sample_json_loads (rev (state_messages w 0)) PNone)
          = false) as Hscan by (vm_compute; reflexivity).
  assert (persisted_active_agent w sample_config = None) as Hp
    by (vm_compute; reflexivity).
  split; [exact Hscan|]. split; [exact Hp|].
  exact (proj2 (proj2 (conditional_edges_cover_agents_only sample_json_loads 0
                         sample_config w)) Hscan Hp).
Defined.

(** ** The interactive driver *)

Section DriverFacts.

Variable graph_stream :
  bool -> nat -> list entry -> config -> list stream_update * option exn.
Variable thread_id : string.

#[local] Abbreviation loop := (chat_loop graph_stream thread_id).
#[local] Abbreviation stream_returns := (stream_returns graph_stream thread_id).

Lemma chat_loop_exit (before after : list string) (x : string) (turn : nat) :
  stream_returns ->
  Forall (fun u => lower u <> "exit") before ->
  lower x = "exit" ->
  ended (loop (before ++ x :: after) turn) = Exited
  /\ turns (loop (before ++ x :: after) turn) = map user_turn before
  /\ unread (loop (before ++ x :: after) turn) = after.
Proof.
  intros Hstream Hbefore Hx. revert turn.
  induction Hbefore as [|u rest Hu _ IH]; intros turn; cbn [app chat_loop].
  - rewrite Hx. cbn. now repeat split.
  - apply String.eqb_neq in Hu. rewrite Hu.
    rewrite (Hstream turn u). cbn [ended turns unread map].
    destruct (IH (S turn)) as (-> & -> & ->). now repeat split.
Qed.

Lemma chat_loop_end_of_input (inputs : list string) (turn : nat) :
  stream_returns ->
  Forall (fun u => lower u <> "exit") inputs ->
  ended (loop inputs turn) = EndOfInput
  /\ turns (loop inputs turn) = map user_turn inputs.
Proof.
  intros Hstream Hinputs. revert turn.
  induction Hinputs as [|u rest Hu _ IH]; intros turn; cbn [chat_loop].
  - now split.
  - apply String.eqb_neq in Hu. rewrite Hu.
    rewrite (Hstream turn u). cbn [ended turns map].
    destruct (IH (S turn)) as (-> & ->). now split.
Qed.


End DriverFacts.

(** X24: the driver stops at the first line that is "exit" in any
    letter case.  When no streamed turn raises, it has run one turn for
    each line before it, in order and each as a single user message, and
    leaves the lines after it unread. *)
Theorem interactive_chat_stops_at_exit
    (graph_stream : bool -> nat -> list entry -> config
                    -> list stream_update * option exn)
    (thread_id : string) (before after : list string) (x : string) :
  stream_returns graph_stream thread_id ->
  Forall (fun u => lower u <> "exit") before ->
  lower x = "exit" ->
  let run := interactive_chat graph_stream thread_id (before ++ x :: after) in
  ended run = Exited
  /\ turns run = map user_turn before
  /\ unread run = after.
Proof.
  intros Hstream Hbefore Hx run. subst run. unfold interactive_chat.
  cbn [ended turns unread]. now apply chat_loop_exit.
Qed.

Lemma interactive_chat_stops_at_exit_witness :
  let silent : bool -> nat -> list entry -> config
               -> list stream_update * option exn := fun _ _ _ _ => ([], None) in
  let run := interactive_chat silent "T1" (["my balance?"] ++ "Exit" :: ["ignored"]) in
  stream_returns silent "T1"
  /\ lower "Exit" = "exit"
  /\ ended run = Exited
  /\ turns run = [user_turn "my balance?"]
  /\ unread run = ["ignored"]
  /\ printed run = [PrintWelcome; PrintNoResponse].
Proof.
  intros silent run.
  assert (stream_returns silent "T1") as Hstream by (intros turn u; reflexivity).
  assert (Forall (fun u => lower u <> "exit") ["my balance?"]) as Hbefore
    by (repeat constructor; discriminate).
  assert (lower "Exit" = "exit") as Hx by reflexivity.
  destruct (interactive_chat_stops_at_exit silent "T1" ["my balance?"] ["ignored"]
              "Exit" Hstream Hbefore Hx) as (He & Ht & Hu).
  split; [exact Hstream|]. split; [exact Hx|]. split; [exact He|].
  split; [exact Ht|]. split; [exact Hu|]. reflexivity.
Defined.

(** X25: without an exit line the driver does not return: when no
    streamed turn raises, it runs a turn for every line and then ends in
    the [EOFError] of reading past the end of standard input. *)
Theorem interactive_chat_without_exit
    (graph_stream : bool -> nat -> list entry -> config
                    -> list stream_update * option exn)
    (thread_id : string) (inputs : list string) :
  stream_returns graph_stream thread_id ->
  Forall (fun u => lower u <> "exit") inputs ->
  let run := interactive_chat graph_stream thread_id inputs in
  ended run = EndOfInput /\ turns run = map user_turn inputs.
Proof.
  intros Hstream Hinputs run. subst run. unfold interactive_chat.
  cbn [ended turns]. now apply chat_loop_end_of_input.
Qed.

Lemma interactive_chat_without_exit_witness :
  let silent : bool -> nat -> list entry -> config
               -> list stream_update * option exn := fun _ _ _ _ => ([], None) in
  let run := interactive_chat silent "T1" ["hello"; "exit now"] in
  stream_returns silent "T1"
  /\ ended run = EndOfInput
  /\ turns run = [user_turn "hello"; user_turn "exit now"].
Proof.
  intros silent run.
  assert (stream_returns silent "T1") as Hstream by (intros turn u; reflexivity).
  assert (Forall (fun u => lower u <> "exit") ["hello"; "exit now"]) as Hinputs
    by (repeat constructor; discriminate).
  split; [exact Hstream|].
  exact (interactive_chat_without_exit silent "T1" ["hello"; "exit now"]
           Hstream Hinputs).
Defined.


